(** * Aihsaas: step-completion detection, narration, camera acquisition
      and the guidance chat

    A shallow embedding of the TypeScript sources of the task players
    (the OpenCV edge heuristic and the COCO-SSD model player), of the
    Gemini guidance call and of the guidance chat page, followed by the
    properties established about them.

    Conventions.  A React component is modelled by the values of its
    [useState] hooks ([Hooks]), its refs and the browser objects it
    drives.  A function declared inside a component closes over the hook
    values of the render that created it: every handler therefore takes
    the render's [Hooks] as an explicit argument [cl] (what the callback
    _reads_) next to the current world (what its setters _update_).
    JavaScript numbers that are counters are integers ([Z]); confidence
    scores, pixel coordinates and [Math.random()] are rationals ([Q]). *)

From Stdlib Require Import ZArith QArith Qround List String Ascii Bool Lia.
From Equations Require Import Equations.
From stdpp Require Import base option list gmap strings.
Import ListNotations.

#[local] Open Scope string_scope.
#[local] Open Scope list_scope.
#[local] Open Scope Z_scope.

(** ** JavaScript operators used by the pages *)

Module Js.

(** [x || d] for an optional number: [undefined] and [0] are falsy. *)
Definition or_default (x : option Z) (d : Z) : Z :=
  match x with
  | Some 0 => d
  | Some v => v
  | None => d
  end.

(** [a > b] and [a < b] on numbers. *)
Definition gt (a b : Q) : bool := negb (Qle_bool a b).
Definition lt (a b : Q) : bool := gt b a.

Definition Math_floor (q : Q) : Z := Qfloor q.

(** [Math.random()] returns a number in [[0, 1)]. *)
Definition is_random (r : Q) : Prop := (0 <= r)%Q /\ (r < 1)%Q.

End Js.

(** ** lib/opencv-detection.ts *)

(** The part of [window.cv] the detector calls.  The calls that fill an
    output matrix return it; [None] is a thrown exception. *)
Record OpenCV (Canvas : Type) := {
  Mat : Type;
  cv_imread : Canvas -> option Mat;
  cv_cvtColor_RGBA2GRAY : Mat -> option Mat;
  cv_Canny : Mat -> Z -> Z -> Z -> bool -> option Mat;
  cv_countNonZero : Mat -> option Z
}.
Arguments Mat {Canvas} _.
Arguments cv_imread {Canvas} _ _.
Arguments cv_cvtColor_RGBA2GRAY {Canvas} _ _.
Arguments cv_Canny {Canvas} _ _ _ _ _ _.
Arguments cv_countNonZero {Canvas} _ _.

Module OpencvDetection.
Section WithCv.
Context {Canvas : Type} (cv : OpenCV Canvas).

Definition threshold : Z := 1000.

(** Steps 1 to 4 of [detectToothbrush]: read the canvas, convert to
    grayscale, run Canny (50, 100, aperture 3), count the non-zero
    pixels of the edge map. *)
Definition edgeCount (canvas : Canvas) : option Z :=
  src ← cv_imread cv canvas;
  gray ← cv_cvtColor_RGBA2GRAY cv src;
  dst ← cv_Canny cv gray 50 100 3 false;
  cv_countNonZero cv dst.

Definition detectToothbrush (canvas : Canvas) : bool :=
  match edgeCount canvas with
  | Some n => n >? threshold
  | None => false (* catch: console.error, return false *)
  end.

End WithCv.
End OpencvDetection.

(** ** app/dashboard/tasks/start/page.tsx: the edge-heuristic player *)

Module HeuristicPlayer.

Record TaskStep := {
  id : string;
  instruction : string;
  visualCue : string;
  cvModelPrompt : string;
  successCriteria : string;
  maxAttempts : option Z
}.

(** [brushingTeethTask.steps] *)
Definition steps : list TaskStep := [
  {| id := "step-1"; instruction := "Pick up your toothbrush";
     visualCue := "/toothbrush.png"; cvModelPrompt := "toothbrush in hand";
     successCriteria := "Toothbrush is in hand"; maxAttempts := Some 3 |};
  {| id := "step-2"; instruction := "Wet the toothbrush under water";
     visualCue := "/toothbrush-water.png";
     cvModelPrompt := "toothbrush under running water";
     successCriteria := "Toothbrush is wet"; maxAttempts := Some 3 |};
  {| id := "step-3"; instruction := "Apply toothpaste to the brush";
     visualCue := "/toothpaste.png"; cvModelPrompt := "toothpaste on brush";
     successCriteria := "Toothpaste is on brush"; maxAttempts := Some 3 |};
  {| id := "step-4"; instruction := "Brush your teeth (top) for 30 seconds";
     visualCue := "/brushing-top.png"; cvModelPrompt := "brushing top teeth";
     successCriteria := "Top teeth brushed"; maxAttempts := Some 6 |};
  {| id := "step-5"; instruction := "Brush your teeth (bottom) for 30 seconds";
     visualCue := "/brushing-bottom.png";
     cvModelPrompt := "brushing bottom teeth";
     successCriteria := "Bottom teeth brushed"; maxAttempts := Some 6 |};
  {| id := "step-6"; instruction := "Rinse your mouth with water";
     visualCue := "/rinsing.png"; cvModelPrompt := "child rinsing mouth";
     successCriteria := "Mouth rinsed"; maxAttempts := Some 3 |}
].

(** The [useState] values of one render. *)
Record Hooks := mkHooks {
  currentStepIndex : nat;
  stepCompleted : bool;
  captureCount : Z;
  isCameraActive : bool;
  opencvReady : bool
}.

Definition currentStep (cl : Hooks) : option TaskStep :=
  steps !! currentStepIndex cl.

Definition isLastStep (cl : Hooks) : bool :=
  Z.of_nat (currentStepIndex cl) =? Z.of_nat (length steps) - 1.

(** [currentStep.maxAttempts || 3] *)
Definition attemptCap (s : TaskStep) : Z := Js.or_default (maxAttempts s) 3.

(** A pending [setTimeout] callback.  [AdvanceNext] is the one of
    [captureAndAnalyze] ([setCurrentStepIndex(prev => prev + 1)] unless
    the closure's step is the last); [AdvanceTo] is the one of
    [handleManualComplete] ([setCurrentStepIndex(currentStepIndex + 1)]). *)
Inductive Timeout :=
| AdvanceNext (delay : Z) (last : bool)
| AdvanceTo (delay : Z) (last : bool) (target : nat).

(** Hook values, the callback held by the running [setInterval] (with
    the render it closes over) and the pending timeouts. *)
Record World := mkWorld {
  hooks : Hooks;
  intervalRef : option Hooks;
  timeouts : list Timeout
}.

Definition setStepCompleted (b : bool) (w : World) : World :=
  let h := hooks w in
  mkWorld (mkHooks (currentStepIndex h) b (captureCount h)
                   (isCameraActive h) (opencvReady h))
          (intervalRef w) (timeouts w).

Definition setCaptureCount (f : Z -> Z) (w : World) : World :=
  let h := hooks w in
  mkWorld (mkHooks (currentStepIndex h) (stepCompleted h) (f (captureCount h))
                   (isCameraActive h) (opencvReady h))
          (intervalRef w) (timeouts w).

Definition setCurrentStepIndex (f : nat -> nat) (w : World) : World :=
  let h := hooks w in
  mkWorld (mkHooks (f (currentStepIndex h)) (stepCompleted h) (captureCount h)
                   (isCameraActive h) (opencvReady h))
          (intervalRef w) (timeouts w).

Definition setIsCameraActive (b : bool) (w : World) : World :=
  let h := hooks w in
  mkWorld (mkHooks (currentStepIndex h) (stepCompleted h) (captureCount h)
                   b (opencvReady h))
          (intervalRef w) (timeouts w).

Definition setOpencvReady (b : bool) (w : World) : World :=
  let h := hooks w in
  mkWorld (mkHooks (currentStepIndex h) (stepCompleted h) (captureCount h)
                   (isCameraActive h) b)
          (intervalRef w) (timeouts w).

Definition clearInterval (w : World) : World :=
  mkWorld (hooks w) None (timeouts w).

Definition setInterval (cl : Hooks) (w : World) : World :=
  mkWorld (hooks w) (Some cl) (timeouts w).

Definition setTimeout (t : Timeout) (w : World) : World :=
  mkWorld (hooks w) (intervalRef w) (timeouts w ++ [t]).

(** A running interval belongs to the current step and has nothing
    pending behind it; at most one advance is pending, and only while
    the interval is stopped. *)
Definition orderly (w : World) : Prop :=
  (currentStepIndex (hooks w) < length steps)%nat
  /\ (isCameraActive (hooks w) = false -> intervalRef w = None /\ timeouts w = [])
  /\ (forall cl, intervalRef w = Some cl ->
        currentStepIndex cl = currentStepIndex (hooks w) /\ timeouts w = [])
  /\ (timeouts w = []
      \/ intervalRef w = None
         /\ timeouts w = [AdvanceNext 2000 (isLastStep (hooks w))]).

(** What one interval tick finds: whether [videoRef.current] is
    mounted, the canvas element (if mounted) with the frame drawn on
    it, and the value of [Math.random()]. *)
Record Frame (Canvas : Type) := {
  video : bool;
  canvas : option Canvas;
  random : Q
}.
Arguments video {Canvas} _.
Arguments canvas {Canvas} _.
Arguments random {Canvas} _.

Section WithCv.
Context {Canvas : Type} (cv : OpenCV Canvas).

(** [analyzeImage], a closure of the same render as its caller. *)
Definition analyzeImage (cl : Hooks) (c : option Canvas) : bool :=
  match c with
  | None => false
  | Some c =>
      if negb (opencvReady cl) then false
      else
        match OpencvDetection.edgeCount cv c with
        | Some edgeCount => edgeCount >? 1000
        | None => false
        end
  end.

(** [isComplete] of [captureAndAnalyze]: the analysis when OpenCV is
    ready, else the count-based stand-in
    [captureCount >= Math.max(2, Math.floor(Math.random() * 4))]. *)
Definition isComplete (cl : Hooks) (f : Frame Canvas) : bool :=
  if opencvReady cl then analyzeImage cl (canvas f)
  else captureCount cl >=? Z.max 2 (Js.Math_floor (random f * 4)).

Definition completeStep (cl : Hooks) (w : World) : World :=
  setTimeout (AdvanceNext 2000 (isLastStep cl))
    (clearInterval (setStepCompleted true w)).

(** [captureAndAnalyze], reading [captureCount], [opencvReady] and
    [currentStep] from the render [cl] it was created in. *)
Definition captureAndAnalyze (cl : Hooks) (f : Frame Canvas) (w : World) : World :=
  if negb (video f) || negb (bool_decide (is_Some (canvas f))) then w
  else
    match currentStep cl with
    | None => w (* currentStep.instruction throws *)
    | Some step =>
        let w := setCaptureCount (fun prev => prev + 1) w in
        if isComplete cl f then completeStep cl w
        else if captureCount cl >=? attemptCap step then completeStep cl w
        else w
    end.

(** React commits a render and runs the effect with dependencies
    [[currentStepIndex, isCameraActive]] when one of them differs from
    the previous render [prev]: its cleanup clears the interval, then
    it resets [stepCompleted] and [captureCount] and, when the camera
    is active, schedules [captureAndAnalyze] _of this render_ every
    3 seconds. *)
Definition commit (prev : Hooks) (w : World) : World :=
  let cur := hooks w in
  if bool_decide (currentStepIndex prev = currentStepIndex cur)
     && bool_decide (isCameraActive prev = isCameraActive cur)
  then w
  else
    let w := clearInterval w in
    let w := setCaptureCount (fun _ => 0) (setStepCompleted false w) in
    if isCameraActive cur then setInterval cur w else w.

(** [handleManualComplete], bound to the latest render. *)
Definition handleManualComplete (cl : Hooks) (w : World) : World :=
  setTimeout (AdvanceTo 1000 (isLastStep cl) (currentStepIndex cl + 1))
    (setStepCompleted true w).

Definition fire (t : Timeout) (w : World) : World :=
  match t with
  | AdvanceNext _ last =>
      if last then w else setCurrentStepIndex (fun prev => (prev + 1)%nat) w
  | AdvanceTo _ last target =>
      if last then w else setCurrentStepIndex (fun _ => target) w
  end.

Inductive Event :=
| OpencvLoaded                  (* the script's readiness poll succeeds *)
| CameraStarted                 (* startCamera: stream attached to the mounted video *)
| CameraFailed                  (* startCamera: getUserMedia rejects *)
| Tick (f : Frame Canvas)       (* the 3 s interval fires *)
| TimeoutFires (n : nat)        (* the n-th pending timeout fires *)
| ManualComplete.               (* "Mark as Complete" *)

Definition step (w : World) (e : Event) : World :=
  let prev := hooks w in
  match e with
  | OpencvLoaded => commit prev (setOpencvReady true w)
  | CameraStarted => commit prev (setIsCameraActive true w)
  | CameraFailed => commit prev (setIsCameraActive false w)
  | Tick f =>
      match intervalRef w with
      | Some cl => commit prev (captureAndAnalyze cl f w)
      | None => w
      end
  | TimeoutFires n =>
      match timeouts w !! n with
      | Some t =>
          commit prev
            (fire t (mkWorld (hooks w) (intervalRef w) (delete n (timeouts w))))
      | None => w
      end
  | ManualComplete => commit prev (handleManualComplete prev w)
  end.

Definition run (w : World) (es : list Event) : World := fold_left step es w.

(** The first render: step 0, nothing captured, camera and OpenCV not
    yet available. *)
Definition mount : World :=
  mkWorld (mkHooks 0 false 0 false false) None [].

(** The events that need no click: the scripts and the camera coming up,
    the interval and the timeouts. *)
Definition automatic (e : Event) : bool :=
  match e with
  | OpencvLoaded | CameraStarted | Tick _ | TimeoutFires _ => true
  | CameraFailed | ManualComplete => false
  end.

End WithCv.
End HeuristicPlayer.

(** A small instance of the [window.cv] interface on which the
    definitions can be run: a canvas is a list of pixel values, the
    colour conversion and the edge filter keep the pixels, and
    [countNonZero] counts the non-zero ones. *)
Definition pixelCv : OpenCV (list Z) := {|
  Mat := list Z;
  cv_imread := fun c => Some c;
  cv_cvtColor_RGBA2GRAY := fun m => Some m;
  cv_Canny := fun m _ _ _ _ => Some m;
  cv_countNonZero := fun m => Some (Z.of_nat (length (filter (fun p => p ≠ 0) m)))
|}.


(** ** app/dashboard/tasks/execute/page.tsx: the object-detector player *)

Module ModelPlayer.

Record CocoDetection := {
  bbox : Q * Q * Q * Q;
  class : string;
  score : Q
}.

(** [bbox[1]], the top edge of the box. *)
Definition bbox1 (d : CocoDetection) : Q :=
  let '(_, y, _, _) := bbox d in y.

Record Landmark := { x : Q; y : Q; z : Q }.

(** One detected hand: its landmark points. *)
Definition Hand : Type := list Landmark.

Record TaskStep := {
  id : string;
  instruction : string;
  audioPrompt : string;
  successCriteria : string;
  defaultRepetition : option Z
}.

Record Task := {
  task_id : string;
  title : string;
  steps : list TaskStep
}.

(** The [useState] values of one render.  [objectDetections],
    [handLandmarks], [volume] and [debugMode] only feed the display and
    the console and are left out. *)
Record Hooks := mkHooks {
  currentStepIndex : nat;
  isStepComplete : bool;
  isPlaying : bool;
  timeLeft : Z;
  detectionStatus : string;
  cameraActive : bool;
  cameraError : option string;
  userInteracted : bool;
  detectionProgress : Z;
  instructionRepeatCount : Z;
  ttsAvailable : bool;
  autoDetectTimeout : option nat
}.

(** A [SpeechSynthesisUtterance] created by [speak]: its text and
    whether its [onend] handler is still attached ([onstart] and
    [onerror] are never detached). *)
Record Utterance := {
  text : string;
  onend : bool
}.

(** Narration: [speechSynthesisRef] (is there a synthesizer),
    [speechUtteranceRef], the utterance objects created so far, the
    synthesizer's queue (its head is the utterance being spoken) and
    the fallback audio clips started with [new Audio(...).play()]. *)
Record Speech := mkSpeech {
  speechSynthesisRef : bool;
  speechUtteranceRef : option nat;
  utterances : list Utterance;
  queue : list nat;
  audioFallbacks : list string
}.

(** What [initCamera] leaves behind for an observer: the attempts it
    started and the back-off delays it awaited, in order. *)
Inductive CameraEffect :=
| Attempt (n : nat)
| BackOff (ms : Z).

(** Camera: the [<video>] element ([videoRef], with its [videoHeight]),
    whether the COCO-SSD model is loaded ([objectDetectionModelRef]),
    [streamRef], the streams whose tracks were stopped, the next fresh
    stream and the trace of [initCamera]. *)
Record Media := mkMedia {
  videoRef : option Z;
  objectDetectionModelRef : bool;
  streamRef : option nat;
  stopped : list nat;
  nextStream : nat;
  cameraTrace : list CameraEffect
}.

(** The callbacks handed to [window.setTimeout], each with the render
    it closes over. *)
Inductive TimerAction :=
| AutoDetect (cl : Hooks)        (* the fallback of startDetection *)
| MoveToNextStep (cl : Hooks).   (* the settle delay of completeDetection *)

Record Timer := {
  delay : Z;
  action : TimerAction
}.

(** Timers: the running detection interval (the render its callback
    closes over; [None] once cleared), the pending timeouts by handle,
    the next fresh handle and [timeoutRef]. *)
Record Sched := mkSched {
  detectionIntervalRef : option Hooks;
  timers : gmap nat Timer;
  nextTimer : nat;
  timeoutRef : option nat
}.

Record World := mkWorld {
  hooks : Hooks;
  speech : Speech;
  media : Media;
  sched : Sched
}.

Definition withHooks (f : Hooks -> Hooks) (w : World) : World :=
  mkWorld (f (hooks w)) (speech w) (media w) (sched w).
Definition withSpeech (f : Speech -> Speech) (w : World) : World :=
  mkWorld (hooks w) (f (speech w)) (media w) (sched w).
Definition withMedia (f : Media -> Media) (w : World) : World :=
  mkWorld (hooks w) (speech w) (f (media w)) (sched w).
Definition withSched (f : Sched -> Sched) (w : World) : World :=
  mkWorld (hooks w) (speech w) (media w) (f (sched w)).

(** *** State setters *)

Definition setCurrentStepIndex (v : nat) : World -> World :=
  withHooks (fun h =>
    mkHooks v (isStepComplete h) (isPlaying h) (timeLeft h) (detectionStatus h)
      (cameraActive h) (cameraError h) (userInteracted h) (detectionProgress h)
      (instructionRepeatCount h) (ttsAvailable h) (autoDetectTimeout h)).
Definition setIsStepComplete (v : bool) : World -> World :=
  withHooks (fun h =>
    mkHooks (currentStepIndex h) v (isPlaying h) (timeLeft h) (detectionStatus h)
      (cameraActive h) (cameraError h) (userInteracted h) (detectionProgress h)
      (instructionRepeatCount h) (ttsAvailable h) (autoDetectTimeout h)).
Definition setIsPlaying (v : bool) : World -> World :=
  withHooks (fun h =>
    mkHooks (currentStepIndex h) (isStepComplete h) v (timeLeft h) (detectionStatus h)
      (cameraActive h) (cameraError h) (userInteracted h) (detectionProgress h)
      (instructionRepeatCount h) (ttsAvailable h) (autoDetectTimeout h)).
Definition setTimeLeft (v : Z) : World -> World :=
  withHooks (fun h =>
    mkHooks (currentStepIndex h) (isStepComplete h) (isPlaying h) v (detectionStatus h)
      (cameraActive h) (cameraError h) (userInteracted h) (detectionProgress h)
      (instructionRepeatCount h) (ttsAvailable h) (autoDetectTimeout h)).
Definition setDetectionStatus (v : string) : World -> World :=
  withHooks (fun h =>
    mkHooks (currentStepIndex h) (isStepComplete h) (isPlaying h) (timeLeft h) v
      (cameraActive h) (cameraError h) (userInteracted h) (detectionProgress h)
      (instructionRepeatCount h) (ttsAvailable h) (autoDetectTimeout h)).
Definition setCameraActive (v : bool) : World -> World :=
  withHooks (fun h =>
    mkHooks (currentStepIndex h) (isStepComplete h) (isPlaying h) (timeLeft h)
      (detectionStatus h) v (cameraError h) (userInteracted h) (detectionProgress h)
      (instructionRepeatCount h) (ttsAvailable h) (autoDetectTimeout h)).
Definition setCameraError (v : option string) : World -> World :=
  withHooks (fun h =>
    mkHooks (currentStepIndex h) (isStepComplete h) (isPlaying h) (timeLeft h)
      (detectionStatus h) (cameraActive h) v (userInteracted h) (detectionProgress h)
      (instructionRepeatCount h) (ttsAvailable h) (autoDetectTimeout h)).
Definition setUserInteracted (v : bool) : World -> World :=
  withHooks (fun h =>
    mkHooks (currentStepIndex h) (isStepComplete h) (isPlaying h) (timeLeft h)
      (detectionStatus h) (cameraActive h) (cameraError h) v (detectionProgress h)
      (instructionRepeatCount h) (ttsAvailable h) (autoDetectTimeout h)).
Definition setDetectionProgress (f : Z -> Z) : World -> World :=
  withHooks (fun h =>
    mkHooks (currentStepIndex h) (isStepComplete h) (isPlaying h) (timeLeft h)
      (detectionStatus h) (cameraActive h) (cameraError h) (userInteracted h)
      (f (detectionProgress h))
      (instructionRepeatCount h) (ttsAvailable h) (autoDetectTimeout h)).
Definition setInstructionRepeatCount (f : Z -> Z) : World -> World :=
  withHooks (fun h =>
    mkHooks (currentStepIndex h) (isStepComplete h) (isPlaying h) (timeLeft h)
      (detectionStatus h) (cameraActive h) (cameraError h) (userInteracted h)
      (detectionProgress h)
      (f (instructionRepeatCount h)) (ttsAvailable h) (autoDetectTimeout h)).
Definition setTtsAvailable (v : bool) : World -> World :=
  withHooks (fun h =>
    mkHooks (currentStepIndex h) (isStepComplete h) (isPlaying h) (timeLeft h)
      (detectionStatus h) (cameraActive h) (cameraError h) (userInteracted h)
      (detectionProgress h) (instructionRepeatCount h) v (autoDetectTimeout h)).
Definition setAutoDetectTimeout (v : option nat) : World -> World :=
  withHooks (fun h =>
    mkHooks (currentStepIndex h) (isStepComplete h) (isPlaying h) (timeLeft h)
      (detectionStatus h) (cameraActive h) (cameraError h) (userInteracted h)
      (detectionProgress h) (instructionRepeatCount h) (ttsAvailable h) v).

(** *** Narration *)

(** The synthesizer belongs to the browser; it is modelled by its
    queue.  [speechSynthesis.speaking] is true from the moment an
    utterance is queued until it has ended, failed or been cancelled,
    and [cancel()] drops the queued utterances without delivering
    further events to them. *)
Definition speaking (s : Speech) : bool :=
  speechSynthesisRef s && negb (bool_decide (queue s = [])).

(** [speechSynthesis.cancel()]: removes all utterances from the queue. *)
Definition synthCancel : World -> World :=
  withSpeech (fun s =>
    mkSpeech (speechSynthesisRef s) (speechUtteranceRef s) (utterances s) []
             (audioFallbacks s)).

(** [speechSynthesis.speak(utterance)] *)
Definition synthSpeak (u : nat) : World -> World :=
  withSpeech (fun s =>
    mkSpeech (speechSynthesisRef s) (speechUtteranceRef s) (utterances s)
             (queue s ++ [u]) (audioFallbacks s)).

Definition setSpeechUtteranceRef (r : option nat) : World -> World :=
  withSpeech (fun s =>
    mkSpeech (speechSynthesisRef s) r (utterances s) (queue s) (audioFallbacks s)).

(** [utterance.onend = null] on the object with handle [u]. *)
Definition detached (ut : Utterance) : Utterance :=
  {| text := text ut; onend := false |}.

Definition detachOnend (u : nat) : World -> World :=
  withSpeech (fun s =>
    mkSpeech (speechSynthesisRef s) (speechUtteranceRef s)
             (alter detached u (utterances s))
             (queue s) (audioFallbacks s)).

(** [new SpeechSynthesisUtterance(text)] with its three handlers set;
    the handle is the number of utterances created before. *)
Definition freshUtterance (s : Speech) : nat := length (utterances s).

Definition newUtterance (t : string) (w : World) : nat * World :=
  let u := freshUtterance (speech w) in
  (u, withSpeech (fun s =>
        mkSpeech (speechSynthesisRef s) (speechUtteranceRef s)
                 (utterances s ++ [{| text := t; onend := true |}])
                 (queue s) (audioFallbacks s)) w).

Definition playAudioFallback (t : string) : World -> World :=
  withSpeech (fun s =>
    mkSpeech (speechSynthesisRef s) (speechUtteranceRef s) (utterances s)
             (queue s) (audioFallbacks s ++ [t])).

Definition cancelSpeech (w : World) : World :=
  let w := if speaking (speech w) then synthCancel w else w in
  let w :=
    match speechUtteranceRef (speech w) with
    | Some u => setSpeechUtteranceRef None (detachOnend u w)
    | None => w
    end in
  setIsPlaying false w.

(** [speak]; [throws] tells whether [speechSynthesis.speak] raises. *)
Definition speak (cl : Hooks) (t : string) (throws : bool) (w : World) : World :=
  if negb (userInteracted cl) then w
  else
    let w := cancelSpeech w in
    if ttsAvailable cl && speechSynthesisRef (speech w) then
      let '(u, w) := newUtterance t w in
      let w := setSpeechUtteranceRef (Some u) w in
      if throws then playAudioFallback t w else synthSpeak u w
    else playAudioFallback t w.

(** The synthesizer's events on the utterance at the head of its queue. *)
Definition dequeue : World -> World :=
  withSpeech (fun s =>
    mkSpeech (speechSynthesisRef s) (speechUtteranceRef s) (utterances s)
             (tail (queue s)) (audioFallbacks s)).

Definition utteranceStart (w : World) : World :=
  match queue (speech w) with
  | _ :: _ => setDetectionStatus "Speaking instruction..." (setIsPlaying true w)
  | [] => w
  end.

Definition utteranceEnd (w : World) : World :=
  match queue (speech w) with
  | u :: _ =>
      let w := dequeue w in
      match utterances (speech w) !! u with
      | Some {| onend := true |} => setSpeechUtteranceRef None (setIsPlaying false w)
      | _ => w
      end
  | [] => w
  end.

Definition utteranceError (w : World) : World :=
  match queue (speech w) with
  | u :: _ =>
      let w := setSpeechUtteranceRef None (setIsPlaying false (dequeue w)) in
      match utterances (speech w) !! u with
      | Some ut => playAudioFallback (text ut) w
      | None => w
      end
  | [] => w
  end.

(** The progress score is a percentage. *)
Definition progressInRange (w : World) : Prop :=
  0 <= detectionProgress (hooks w) <= 100.


(** *** Timers *)

Definition clearDetectionInterval : World -> World :=
  withSched (fun s => mkSched None (timers s) (nextTimer s) (timeoutRef s)).

Definition setDetectionInterval (cl : Hooks) : World -> World :=
  withSched (fun s => mkSched (Some cl) (timers s) (nextTimer s) (timeoutRef s)).

(** [window.setTimeout(callback, delay)]: registers the callback under a
    fresh handle (a positive number, so a truthy one) and returns it. *)
Definition setTimeout (a : TimerAction) (d : Z) (w : World) : nat * World :=
  let t := nextTimer (sched w) in
  (t, withSched (fun s =>
        mkSched (detectionIntervalRef s)
                (<[t := {| delay := d; action := a |}]> (timers s))
                (S t) (timeoutRef s)) w).

Definition clearTimeout (t : nat) : World -> World :=
  withSched (fun s =>
    mkSched (detectionIntervalRef s) (delete t (timers s)) (nextTimer s)
            (timeoutRef s)).

Definition setTimeoutRef (t : nat) : World -> World :=
  withSched (fun s =>
    mkSched (detectionIntervalRef s) (timers s) (nextTimer s) (Some t)).

(** *** Detection *)

(** [stepActionMap] of [getActionTypeForStep] *)
Definition stepActionMap : gmap string string :=
  list_to_map [
    ("step-1", "pickup_toothbrush");
    ("step-2", "wet_toothbrush");
    ("step-3", "open_toothpaste");
    ("step-4", "apply_toothpaste");
    ("step-5", "brush_teeth");
    ("step-6", "brush_teeth");
    ("step-7", "rinse_mouth")
  ].

Definition getActionTypeForStep (stepId : string) : string :=
  default "default" (stepActionMap !! stepId).

(** [simulateHandPose]: one hand of 21 random points when
    [Math.random() > 0.7], no hand otherwise.  [r] is that first random
    number and [pts] the following triples. *)
Definition simulateHandPose (r : Q) (pts : nat -> Landmark) : list Hand :=
  if Js.gt r (7 # 10) then [map pts (seq 0 21)] else [].

(** Every stream obtained so far has been stopped, except the one
    [streamRef] holds; streams are numbered in the order obtained. *)
Definition accounted (m : Media) : Prop :=
  stopped m ++ from_option (fun s => [s]) [] (streamRef m) = seq 0 (nextStream m).





Section WithTask.

(** [tasks.find(t => t.id === taskId)], from the catalogue in
    [@/lib/tasks], and the [mode] and [interval] query parameters. *)
Variable task : option Task.
Variable fixedMode : bool.
Variable customInterval : Z.

(** [isHandNearMouth] of [@/lib/handDetection]. *)
Variable isHandNearMouth : list Hand -> bool.

Definition currentStep (cl : Hooks) : option TaskStep :=
  t ← task; steps t !! currentStepIndex cl.

(** [currentStepIndex === (task?.steps.length ?? 0) - 1] *)
Definition isLastStep (cl : Hooks) : bool :=
  Z.of_nat (currentStepIndex cl)
  =? Z.of_nat (from_option (fun t => length (steps t)) 0%nat task) - 1.

(** [startDetection]: restart the 1 s detection interval and schedule
    the fallback timeout after [10000 + Math.floor(Math.random() * 1000)]
    milliseconds.  [rnd] is the value of [Math.random()]. *)
Definition randomDelay (rnd : Q) : Z := 10000 + Js.Math_floor (rnd * 1000).

Definition startDetection (cl : Hooks) (rnd : Q) (w : World) : World :=
  if negb (bool_decide (is_Some (videoRef (media w))))
     || negb (objectDetectionModelRef (media w))
  then w
  else
    let w := clearDetectionInterval w in
    let w := setDetectionInterval cl w in
    let '(timeout, w) := setTimeout (AutoDetect cl) (randomDelay rnd) w in
    setAutoDetectTimeout (Some timeout) w.

(** [completeDetection] *)
Definition completeDetection (cl : Hooks) (w : World) : World :=
  let w :=
    match autoDetectTimeout cl with
    | Some t => setAutoDetectTimeout None (clearTimeout t w)
    | None => w
    end in
  let w := clearDetectionInterval w in
  let w := setDetectionStatus "Task detected!" w in
  let w := setIsStepComplete true w in
  let w := cancelSpeech w in
  let '(t, w) := setTimeout (MoveToNextStep cl) 2000 w in
  setTimeoutRef t w.

(** The fallback timeout scheduled by [startDetection]. *)
Definition autoDetect (cl : Hooks) (w : World) : World :=
  let w := setDetectionStatus "Task detected!" w in
  let w := setDetectionProgress (fun _ => 100) w in
  completeDetection cl w.

(** The evidence tests of the ['brush_teeth'] case. *)
Definition toothbrushDetection (detections : list CocoDetection)
  : option CocoDetection :=
  find (fun d => String.eqb (class d) "toothbrush") detections.

Definition toothbrushDetected (detections : list CocoDetection) : bool :=
  match toothbrushDetection detections with
  | Some d => Js.gt (score d) (6 # 10)
  | None => false
  end.

Definition isToothbrushInUpperFrame (w : World)
    (detections : list CocoDetection) : bool :=
  match toothbrushDetection detections with
  | Some d => Js.lt (bbox1 d) (inject_Z (default 0 (videoRef (media w))) * (6 # 10))
  | None => false
  end.

(** [checkStepCompletion].  The setter is given an updater of the
    previous value; the threshold test reads [detectionProgress] of the
    render [cl]. *)
Definition checkStepCompletion (cl : Hooks)
    (detections : list CocoDetection) (landmarks : list Hand)
    (w : World) : World :=
  match currentStep cl with
  | None => w
  | Some step =>
      let actionType := getActionTypeForStep (id step) in
      if String.eqb actionType "brush_teeth" then
        let detected := toothbrushDetected detections in
        let upper := isToothbrushInUpperFrame w detections in
        let handNearMouth := isHandNearMouth landmarks in
        if (detected && upper) || (detected && handNearMouth) then
          let incrementAmount := if handNearMouth && detected then 25 else 15 in
          let w := setDetectionProgress
                     (fun prev => Z.min (prev + incrementAmount) 100) w in
          if detectionProgress cl >=? 80 then completeDetection cl w else w
        else setDetectionProgress (fun prev => Z.max (prev - 5) 0) w
      else
        if (0 <? Z.of_nat (length detections)) || (0 <? Z.of_nat (length landmarks))
        then
          let w := setDetectionProgress (fun prev => Z.min (prev + 10) 100) w in
          if detectionProgress cl >=? 80 then completeDetection cl w else w
        else setDetectionProgress (fun prev => Z.max (prev - 2) 0) w
  end.

(** The test under which [checkStepCompletion] adds to the progress of
    step [s] instead of letting it decay. *)
Definition positiveEvidence (w : World) (s : TaskStep)
    (detections : list CocoDetection) (landmarks : list Hand) : bool :=
  if String.eqb (getActionTypeForStep (id s)) "brush_teeth" then
    (toothbrushDetected detections && isToothbrushInUpperFrame w detections)
    || (toothbrushDetected detections && isHandNearMouth landmarks)
  else
    (0 <? Z.of_nat (length detections)) || (0 <? Z.of_nat (length landmarks)).

(** The callback of the detection interval.  [detect] is the outcome of
    the model on the current frame ([None]: it throws); a failed cycle
    is caught and contributes nothing. *)
Definition detectionTick (cl : Hooks) (detect : option (list CocoDetection))
    (r : Q) (pts : nat -> Landmark) (w : World) : World :=
  if negb (bool_decide (is_Some (videoRef (media w))))
     || negb (objectDetectionModelRef (media w))
     || isStepComplete cl
  then w
  else
    match detect with
    | None => w
    | Some detections =>
        checkStepCompletion cl detections (simulateHandPose r pts) w
    end.

(** [speakInstruction] *)
Definition speakInstruction (cl : Hooks) (throws : bool) (w : World) : World :=
  match currentStep cl with
  | None => w
  | Some step =>
      speak cl (audioPrompt step) throws
        (setInstructionRepeatCount (fun prev => prev + 1) w)
  end.

(** [moveToNextStep] *)
Definition moveToNextStep (cl : Hooks) (rnd : Q) (throws : bool)
    (w : World) : World :=
  match task with
  | None => w
  | Some t =>
      let w := setInstructionRepeatCount (fun _ => 0) w in
      let w := setDetectionProgress (fun _ => 0) w in
      if isLastStep cl then w
      else
        let w := setCurrentStepIndex (currentStepIndex cl + 1) w in
        let w := setIsStepComplete false w in
        let w := setDetectionStatus "Starting next step..." w in
        let w := setTimeLeft
                   (if fixedMode then customInterval
                    else Js.or_default
                           (s ← steps t !! (currentStepIndex cl + 1)%nat;
                            defaultRepetition s) 15) w in
        let w := startDetection cl rnd w in
        speakInstruction cl throws w
  end.

(** *** Camera acquisition *)

Inductive Failure :=
| DOMException (name : string)
| Error (message : string).

(** How one acquisition attempt goes once the video element exists. *)
Inductive Acquisition :=
| GetUserMediaRejects (e : Failure)
| CameraTimeout          (* no metadata within 10 s *)
| VideoError             (* the element's onerror *)
| PlayRejects (e : Failure)
| Streaming.

Definition logCamera (e : CameraEffect) : World -> World :=
  withMedia (fun m =>
    mkMedia (videoRef m) (objectDetectionModelRef m) (streamRef m) (stopped m)
            (nextStream m) (cameraTrace m ++ [e])).

(** [streamRef.current.getTracks().forEach(track => track.stop());
     streamRef.current = null] when a stream is held. *)
Definition releaseStream : World -> World :=
  withMedia (fun m =>
    match streamRef m with
    | Some s =>
        mkMedia (videoRef m) (objectDetectionModelRef m) None (stopped m ++ [s])
                (nextStream m) (cameraTrace m)
    | None => m
    end).

(** [streamRef.current = stream] for the stream just obtained. *)
Definition holdStream : World -> World :=
  withMedia (fun m =>
    mkMedia (videoRef m) (objectDetectionModelRef m) (Some (nextStream m))
            (stopped m) (S (nextStream m)) (cameraTrace m)).

(** The [try] block of [initCamera]: the world it leaves and the
    exception it raised, if any. *)
Definition tryCamera (cl : Hooks) (acq : Acquisition) (rnd : Q) (attempt : nat)
    (w : World) : World * option Failure :=
  let w := logCamera (Attempt attempt) w in
  let w := setDetectionStatus "Initializing camera..." w in
  let w := releaseStream w in
  match videoRef (media w) with
  | None => (w, Some (Error "Video element not available"))
  | Some _ =>
      match acq with
      | GetUserMediaRejects e => (w, Some e)
      | CameraTimeout => (holdStream w, Some (Error "Camera timeout"))
      | VideoError => (holdStream w, Some (Error "Video error"))
      | PlayRejects e => (holdStream w, Some e)
      | Streaming =>
          let w := holdStream w in
          let w := setCameraActive true w in
          let w := setCameraError None w in
          let w := setDetectionStatus "Camera ready" w in
          (startDetection cl rnd w, None)
      end
  end.

(** The exception one attempt ends with, [None] when it succeeds. *)
Definition outcome (video : option Z) (acq : Acquisition) : option Failure :=
  match video with
  | None => Some (Error "Video element not available")
  | Some _ =>
      match acq with
      | GetUserMediaRejects e => Some e
      | CameraTimeout => Some (Error "Camera timeout")
      | VideoError => Some (Error "Video error")
      | PlayRejects e => Some e
      | Streaming => None
      end
  end.

(** The message shown for the failure of the last attempt. *)
Definition errorMessage (err : Failure) : string :=
  match err with
  | DOMException name =>
      if String.eqb name "NotFoundError" then "No camera found"
      else if String.eqb name "NotAllowedError" then "Permission denied"
      else if String.eqb name "NotReadableError" then "Camera in use"
      else "Camera error"
  | Error _ => "Camera error"
  end.

Definition giveUp (err : Failure) (w : World) : World :=
  let m := errorMessage err in
  let w := setCameraError (Some m) w in
  let w := setCameraActive false w in
  let w := setDetectionStatus m w in
  releaseStream w.

(** [initCamera(attempt)].  [cam n] is how the [n]-th attempt goes. *)
Equations? initCamera (cl : Hooks) (cam : nat -> Acquisition) (rnd : Q)
    (attempt : nat) (w : World) : World by wf (3 - attempt)%nat lt :=
  initCamera cl cam rnd attempt w with tryCamera cl (cam attempt) rnd attempt w => {
    | (w', None) := w';
    | (w', Some err) with lt_dec attempt 3 => {
        | left _ :=
            initCamera cl cam rnd (S attempt)
              (logCamera (BackOff (1000 * Z.of_nat attempt)) w');
        | right _ := giveUp err w' } }.
Proof. lia. Qed.

(** [clearAllIntervals] and [cleanUp] (the detection interval and the
    settle timeout; the countdown interval is never started). *)
Definition clearAllIntervals (w : World) : World :=
  let w := clearDetectionInterval w in
  match timeoutRef (sched w) with
  | Some t => clearTimeout t w
  | None => w
  end.

Definition cleanUp (cl : Hooks) (w : World) : World :=
  let w :=
    withMedia (fun m =>
      match streamRef m with
      | Some s =>
          mkMedia (videoRef m) (objectDetectionModelRef m) (streamRef m)
                  (stopped m ++ [s]) (nextStream m) (cameraTrace m)
      | None => m
      end) w in
  let w := cancelSpeech w in
  let w := clearAllIntervals w in
  match autoDetectTimeout cl with
  | Some t => clearTimeout t w
  | None => w
  end.

(** *** The page as an event system

    Every callback may be run with the hook values of any render
    ([cl]): which render a timer or interval callback closes over is
    left open, so what holds for all event sequences holds for the
    page's own schedule. *)
Inductive Event :=
| FirstInteraction (cl : Hooks) (throws : bool)
| EnableVoice
| VoicesChanged (available : bool)
| InitCamera (cl : Hooks) (cam : nat -> Acquisition) (rnd : Q)
| DetectionTick (cl : Hooks) (detect : option (list CocoDetection))
                (r : Q) (pts : nat -> Landmark)
| AutoDetectFires (cl : Hooks)
| MoveToNextStepFires (cl : Hooks) (rnd : Q) (throws : bool)
| Speak (cl : Hooks) (t : string) (throws : bool)
| UtteranceStarts
| UtteranceEnds
| UtteranceFails
| Unmount (cl : Hooks).

Definition step (w : World) (e : Event) : World :=
  match e with
  | FirstInteraction cl throws =>
      speakInstruction cl throws (setUserInteracted true w)
  | EnableVoice => setUserInteracted true w
  | VoicesChanged b => setTtsAvailable b w
  | InitCamera cl cam rnd => initCamera cl cam rnd 1 w
  | DetectionTick cl detect r pts => detectionTick cl detect r pts w
  | AutoDetectFires cl => autoDetect cl w
  | MoveToNextStepFires cl rnd throws => moveToNextStep cl rnd throws w
  | Speak cl t throws => speak cl t throws w
  | UtteranceStarts => utteranceStart w
  | UtteranceEnds => utteranceEnd w
  | UtteranceFails => utteranceError w
  | Unmount cl => cleanUp cl w
  end.

Definition run (w : World) (es : list Event) : World := fold_left step es w.

(** The first render; [synth] tells whether the browser has
    [speechSynthesis], [video] is the camera element. *)
Definition mount (synth : bool) (video : option Z) (model : bool) : World :=
  mkWorld
    (mkHooks 0 false false customInterval "Initializing..." false None false 0 0
             true None)
    (mkSpeech synth None [] [] [])
    (mkMedia video model None [] 0 [])
    (mkSched None ∅ 1 None).

(** *** The schedule of the page itself

    The mount effect runs [initCamera] of the first render; from then
    on the browser runs the callbacks it was handed: a pending timeout
    (which is then gone) and the detection interval, each with the
    render it closes over.  The click listener may belong to any
    render.  The "Retry Camera" button, shown only after a camera
    error, is not part of this schedule. *)
Definition timerClosure (t : Timer) : Hooks :=
  match action t with
  | AutoDetect cl => cl
  | MoveToNextStep cl => cl
  end.

Inductive Fired :=
| TimerFires (t : nat) (rnd : Q) (throws : bool)
| IntervalFires (detect : option (list CocoDetection)) (r : Q)
                (pts : nat -> Landmark)
| Click (cl : Hooks) (throws : bool)
| VoiceButton
| VoicesChange (available : bool)
| SynthStarts
| SynthEnds
| SynthFails.

Definition dispatch (w : World) (e : Fired) : World :=
  match e with
  | TimerFires t rnd throws =>
      match timers (sched w) !! t with
      | Some tm =>
          let w := clearTimeout t w in
          match action tm with
          | AutoDetect cl => autoDetect cl w
          | MoveToNextStep cl => moveToNextStep cl rnd throws w
          end
      | None => w
      end
  | IntervalFires detect r pts =>
      match detectionIntervalRef (sched w) with
      | Some cl => detectionTick cl detect r pts w
      | None => w
      end
  | Click cl throws => speakInstruction cl throws (setUserInteracted true w)
  | VoiceButton => setUserInteracted true w
  | VoicesChange b => setTtsAvailable b w
  | SynthStarts => utteranceStart w
  | SynthEnds => utteranceEnd w
  | SynthFails => utteranceError w
  end.

(** The page from its first render on: the mount effect, then the
    events [es]. *)
Definition play (synth : bool) (video : option Z) (model : bool)
    (cam : nat -> Acquisition) (rnd : Q) (es : list Fired) : World :=
  let first := mount synth video model in
  fold_left dispatch es (initCamera (hooks first) cam rnd 1 first).

(** Every callback the browser holds closes over the render [h]. *)
Definition closuresAre (h : Hooks) (s : Sched) : Prop :=
  map_Forall (fun _ t => timerClosure t = h) (timers s)
  /\ forall cl, detectionIntervalRef s = Some cl -> cl = h.

(** The hook values of the first render, and what holds while every
    callback closes over it. *)
Definition firstRender : Hooks :=
  mkHooks 0 false false customInterval "Initializing..." false None false 0 0
          true None.

Definition onFirstRender (w : World) : Prop :=
  closuresAre firstRender (sched w) /\ (currentStepIndex (hooks w) <= 1)%nat.

End WithTask.
End ModelPlayer.

(** ** Strings as the pages use them

    Texts are strings of 8-bit characters; case folding and white space
    are those of ASCII. *)

Module JsString.

Definition isSpace (c : ascii) : bool :=
  let n := nat_of_ascii c in
  (n =? 32)%nat || ((9 <=? n)%nat && (n <=? 13)%nat).

Definition lowerChar (c : ascii) : ascii :=
  let n := nat_of_ascii c in
  if (65 <=? n)%nat && (n <=? 90)%nat then ascii_of_nat (n + 32) else c.

(** [s.toLowerCase()] *)
Fixpoint toLowerCase (s : string) : string :=
  match s with
  | EmptyString => EmptyString
  | String c r => String (lowerChar c) (toLowerCase r)
  end.

(** [s.startsWith(p)] *)
Fixpoint startsWith (p s : string) : bool :=
  match p, s with
  | EmptyString, _ => true
  | String a p', String b s' => Ascii.eqb a b && startsWith p' s'
  | String _ _, EmptyString => false
  end.

(** [s.includes(sub)] *)
Fixpoint includes (s sub : string) : bool :=
  startsWith sub s
  || match s with
     | EmptyString => false
     | String _ r => includes r sub
     end.

Fixpoint trimStart (s : string) : string :=
  match s with
  | EmptyString => EmptyString
  | String c r => if isSpace c then trimStart r else s
  end.

Fixpoint trimEnd (s : string) : string :=
  match s with
  | EmptyString => EmptyString
  | String c r =>
      match trimEnd r with
      | EmptyString => if isSpace c then EmptyString else String c EmptyString
      | r' => String c r'
      end
  end.

(** Whether [s] consists of white space only. *)
Fixpoint allSpace (s : string) : bool :=
  match s with
  | EmptyString => true
  | String c r => isSpace c && allSpace r
  end.

(** [s.trim()] *)
Definition trim (s : string) : string := trimEnd (trimStart s).

(** [s.replace(/pat/g, rep)] for a literal, non-empty pattern: matches
    are taken from left to right and do not overlap.  [skip] counts the
    characters of a match still to be dropped. *)
Fixpoint replaceFrom (pat rep : string) (skip : nat) (s : string) : string :=
  match s with
  | EmptyString => EmptyString
  | String c r =>
      match skip with
      | S k => replaceFrom pat rep k r
      | O =>
          if startsWith pat s
          then rep +:+ replaceFrom pat rep (String.length pat - 1) r
          else String c (replaceFrom pat rep 0 r)
      end
  end.

Definition replaceAll (pat rep s : string) : string := replaceFrom pat rep 0 s.

(** [parts.join(sep)] *)
Fixpoint join (sep : string) (parts : list string) : string :=
  match parts with
  | [] => EmptyString
  | [p] => p
  | p :: rest => p +:+ sep +:+ join sep rest
  end.

End JsString.

(** [l.slice(-n)]: the last [n] elements. *)
Definition sliceLast {A} (n : nat) (l : list A) : list A :=
  drop (length l - n) l.

(** ** lib/gemini.ts *)

Module Gemini.

(** A value produced by [JSON.parse]. *)
#[local] Set Warnings "-register-all".
Inductive json :=
| JNull
| JBool (b : bool)
| JNumber (n : Q)
| JString (s : string)
| JArray (items : list json)
| JObject (fields : list (string * json)).

(** The result of reading a property. *)
Inductive Access :=
| Throws                 (* TypeError: the value is null *)
| Undefined
| Value (v : json).

(** Own property [k] of a parsed object; of duplicate keys the last
    one wins. *)
Fixpoint lookupField (k : string) (fields : list (string * json)) : option json :=
  match fields with
  | [] => None
  | (k', v) :: rest =>
      match lookupField k rest with
      | Some later => Some later
      | None => if String.eqb k' k then Some v else None
      end
  end.

(** [response.k] for the three names read by [getParentGuidance], none
    of which is a built-in property of a string, number, boolean or
    array. *)
Definition property (v : json) (k : string) : Access :=
  match v with
  | JNull => Throws
  | JObject fields =>
      match lookupField k fields with
      | Some x => Value x
      | None => Undefined
      end
  | _ => Undefined
  end.

Definition truthy (v : json) : bool :=
  match v with
  | JNull => false
  | JBool b => b
  | JNumber n => negb (Qeq_bool n 0)
  | JString s => negb (String.eqb s EmptyString)
  | JArray _ | JObject _ => true
  end.

(** [!response.k]: [None] when the read throws. *)
Definition isMissing (v : json) (k : string) : option bool :=
  match property v k with
  | Throws => None
  | Undefined => Some true
  | Value x => Some (negb (truthy x))
  end.

(** Whether the parsed value has an own property [k], and the three
    top-level fields of a [GuidanceResponse]. *)
Definition hasField (v : json) (k : string) : bool :=
  match property v k with
  | Value _ => true
  | _ => false
  end.

Definition requiredFields : list string :=
  ["support"; "actionPlan"; "therapySuggestions"].

(** What [model.generateContent] and [result.response.text()] give. *)
Inductive Generation :=
| Rejects
| Text (s : string).

Definition retryMessage : string := "Failed to get guidance. Please try again.".

Section WithParser.

(** [JSON.parse]; [None] is a [SyntaxError]. *)
Variable JSON_parse : string -> option json.

Definition responseText (raw : string) : string :=
  JsString.trim
    (JsString.replaceAll "```" EmptyString (JsString.replaceAll "```json" EmptyString raw)).

(** The structure check: [inl] the accepted response, [inr] a thrown
    error. *)
Definition validate (response : json) : json + string :=
  match isMissing response "support" with
  | None => inr "TypeError"
  | Some true => inr "Invalid response structure from API"
  | Some false =>
      match isMissing response "actionPlan" with
      | None => inr "TypeError"
      | Some true => inr "Invalid response structure from API"
      | Some false =>
          match isMissing response "therapySuggestions" with
          | None => inr "TypeError"
          | Some true => inr "Invalid response structure from API"
          | Some false => inl response
          end
      end
  end.

(** [getParentGuidance] after the request was sent: the response, or
    the message of the error it throws.  Whatever fails inside the
    [try] is caught and replaced by the retry message. *)
Definition getParentGuidance (gen : Generation) : json + string :=
  match gen with
  | Rejects => inr retryMessage
  | Text raw =>
      match JSON_parse (responseText raw) with
      | None => inr retryMessage
      | Some response =>
          match validate response with
          | inl r => inl r
          | inr _ => inr retryMessage
          end
      end
  end.

End WithParser.
End Gemini.

(** ** app/dashboard/guidance/page.tsx *)

Module GuidancePage.
Import Gemini.

Inductive Sender := parent | guide.

(** [content: string | GuidanceResponse] *)
Inductive Content :=
| Plain (s : string)
| Guidance (r : json).

(** [isGeneral] is optional in the source; an absent flag is [false]. *)
Record ChatMessage := {
  sender : Sender;
  content : Content;
  isGeneral : bool
}.

Definition GENERAL_KEYWORDS : list string :=
  ["weather"; "time"; "capital"; "how old"; "who is"].

Definition isGeneralQuery (query : string) : bool :=
  existsb (fun keyword =>
             JsString.includes (JsString.toLowerCase query)
                               (JsString.toLowerCase keyword))
          GENERAL_KEYWORDS.

Definition generalReply : ChatMessage := {|
  sender := guide;
  content := Plain "I specialize in neurodevelopmental guidance. For general questions like this, please try a different resource.";
  isGeneral := true
|}.

Definition errorReply : ChatMessage := {|
  sender := guide;
  content := Plain "Sorry, I encountered an error. Please try again later.";
  isGeneral := false
|}.

Record State := mkState {
  messages : list ChatMessage;
  input : string;
  isLoading : bool
}.

(** One call of [getParentGuidance(prompt, context)]. *)
Record ApiCall := {
  prompt : string;
  context : string
}.

Section WithJson.

Variable JSON_parse : string -> option json.
Variable JSON_stringify : json -> string.

Definition contentText (m : ChatMessage) : string :=
  match content m with
  | Plain s => s
  | Guidance r => JSON_stringify r
  end.

(** The messages that make up the context of a request: of the last
    three, those not flagged [isGeneral]. *)
Definition contextMessages (msgs : list ChatMessage) : list ChatMessage :=
  filter (fun m => negb (isGeneral m) = true) (sliceLast 3 msgs).

Definition contextOf (msgs : list ChatMessage) : string :=
  JsString.join " " (map contentText (contextMessages msgs)).

(** [handleSend] with the state of the render it is bound to; [gen] is
    the outcome of the request, should one be sent.  Returns the state
    once the handler has finished and the API calls it made. *)
Definition handleSend (gen : Generation) (st : State) : State * list ApiCall :=
  if String.eqb (JsString.trim (input st)) EmptyString || isLoading st then (st, [])
  else
    let userMessage :=
      {| sender := parent; content := Plain (input st); isGeneral := false |} in
    let sent := messages st ++ [userMessage] in
    if isGeneralQuery (input st) then
      (mkState (sent ++ [generalReply]) EmptyString false, [])
    else
      let call := {| prompt := input st; context := contextOf (messages st) |} in
      match getParentGuidance JSON_parse gen with
      | inl response =>
          (mkState (sent ++ [{| sender := guide; content := Guidance response;
                                isGeneral := false |}]) EmptyString false,
           [call])
      | inr _ => (mkState (sent ++ [errorReply]) EmptyString false, [call])
      end.

(** A conversation: the user types [text] and sends it; [gen] answers
    the request if one is made.  The calls are collected in order. *)
Fixpoint converse (turns : list (string * Generation)) (st : State)
  : State * list ApiCall :=
  match turns with
  | [] => (st, [])
  | (t, gen) :: rest =>
      let '(st1, calls1) :=
        handleSend gen (mkState (messages st) t (isLoading st)) in
      let '(st2, calls2) := converse rest st1 in
      (st2, calls1 ++ calls2)
  end.

End WithJson.
End GuidancePage.

(** ** Instances on which the definitions are run *)

(** A frame with 200 edge pixels (below the threshold) and one with
    1500 (above it), both with the video and canvas mounted. *)
Definition quietFrame : HeuristicPlayer.Frame (list Z) := {|
  HeuristicPlayer.video := true;
  HeuristicPlayer.canvas := Some (replicate 200 1);
  HeuristicPlayer.random := 0
|}.

Definition busyFrame : HeuristicPlayer.Frame (list Z) := {|
  HeuristicPlayer.video := true;
  HeuristicPlayer.canvas := Some (replicate 1500 1);
  HeuristicPlayer.random := 0
|}.

(** A task in the shape the model player expects, with the step
    identifiers of [stepActionMap]. *)
Definition brushingTask : ModelPlayer.Task := {|
  ModelPlayer.task_id := "brushing-teeth";
  ModelPlayer.title := "Brushing Teeth";
  ModelPlayer.steps :=
    map (fun n : string =>
           {| ModelPlayer.id := "step-" +:+ n;
              ModelPlayer.instruction := "Instruction " +:+ n;
              ModelPlayer.audioPrompt := "Prompt " +:+ n;
              ModelPlayer.successCriteria := "Criteria " +:+ n;
              ModelPlayer.defaultRepetition := None |})
        ["1"; "2"; "3"; "4"; "5"; "6"; "7"]
|}.

(** A hand test that answers yes whenever a hand is present. *)
Definition anyHand (hands : list ModelPlayer.Hand) : bool :=
  match hands with
  | [] => false
  | _ :: _ => true
  end.

Definition originPoint (_ : nat) : ModelPlayer.Landmark :=
  {| ModelPlayer.x := 0; ModelPlayer.y := 0; ModelPlayer.z := 0 |}.

(** The model player on [brushingTask], mounted with a synthesizer, a
    480-pixel-high camera element and the model loaded. *)
Definition playerStart : ModelPlayer.World := ModelPlayer.mount 15 true (Some 480) true.

Definition playerRun : ModelPlayer.World -> list ModelPlayer.Event -> ModelPlayer.World :=
  ModelPlayer.run (Some brushingTask) false 15 anyHand.

(** A toothbrush seen with confidence 0.62, its box starting 100 pixels
    from the top. *)
Definition toothbrush062 : ModelPlayer.CocoDetection := {|
  ModelPlayer.bbox := (200, 100, 80, 160)%Q;
  ModelPlayer.class := "toothbrush";
  ModelPlayer.score := 62 # 100
|}.

(** An assistant answer without [therapySuggestions], as the model
    sends it (inside a json code fence), and a parser that knows this
    one text. *)
Definition newline : string := String (ascii_of_nat 10) EmptyString.

Definition quoted (s : string) : string :=
  String (ascii_of_nat 34) s +:+ String (ascii_of_nat 34) EmptyString.

Definition incompleteBody : string :=
  "{" +:+ quoted "support" +:+ ":{" +:+ quoted "emotionalSupport" +:+ ":"
  +:+ quoted "a" +:+ "," +:+ quoted "validation" +:+ ":" +:+ quoted "b" +:+ "},"
  +:+ quoted "actionPlan" +:+ ":{}}".

Definition incompleteAnswer : string :=
  "```json" +:+ newline +:+ incompleteBody +:+ newline +:+ "```".

Definition incompleteJson : Gemini.json :=
  Gemini.JObject [
    ("support", Gemini.JObject [("emotionalSupport", Gemini.JString "a");
                                ("validation", Gemini.JString "b")]);
    ("actionPlan", Gemini.JObject [])
  ].

Definition parseKnown (s : string) : option Gemini.json :=
  if String.eqb s incompleteBody then Some incompleteJson else None.

Definition stringifyKnown (_ : Gemini.json) : string := "{}".

(** * Properties *)

(** ** The definitions at work *)

Example includes_ignores_word_boundaries :
  GuidancePage.isGeneralQuery "My child struggles at BEDTIME" = true.
Proof. reflexivity. Qed.

Example trim_both_ends : JsString.trim "  who is  " = "who is".
Proof. reflexivity. Qed.

Example fences_are_stripped :
  Gemini.responseText incompleteAnswer = incompleteBody.
Proof. vm_compute. reflexivity. Qed.

Example busy_frame_completes_first_tick :
  let w := HeuristicPlayer.run pixelCv HeuristicPlayer.mount
             [HeuristicPlayer.OpencvLoaded; HeuristicPlayer.CameraStarted;
              HeuristicPlayer.Tick busyFrame] in
  HeuristicPlayer.stepCompleted (HeuristicPlayer.hooks w) = true
  /\ HeuristicPlayer.intervalRef w = None
  /\ HeuristicPlayer.timeouts w = [HeuristicPlayer.AdvanceNext 2000 false].
Proof. vm_compute. repeat split; reflexivity. Qed.

Example second_speak_replaces_first :
  let cl := ModelPlayer.hooks (ModelPlayer.setUserInteracted true playerStart) in
  let w := playerRun playerStart
             [ModelPlayer.EnableVoice;
              ModelPlayer.Speak cl "Pick up your toothbrush" false;
              ModelPlayer.UtteranceStarts;
              ModelPlayer.Speak cl "Wet the toothbrush" false] in
  ModelPlayer.queue (ModelPlayer.speech w) = [1%nat]
  /\ ModelPlayer.speechUtteranceRef (ModelPlayer.speech w) = Some 1%nat
  /\ (ModelPlayer.onend <$> ModelPlayer.utterances (ModelPlayer.speech w))
     = [false; true].
Proof. vm_compute. repeat split; reflexivity. Qed.

Example camera_ready_on_second_attempt :
  let cam (n : nat) :=
    match n with
    | 1%nat => ModelPlayer.CameraTimeout
    | _ => ModelPlayer.Streaming
    end in
  let w := ModelPlayer.initCamera (ModelPlayer.hooks playerStart) cam (1 # 2) 1
             playerStart in
  ModelPlayer.cameraTrace (ModelPlayer.media w)
  = [ModelPlayer.Attempt 1; ModelPlayer.BackOff 1000; ModelPlayer.Attempt 2]
  /\ ModelPlayer.cameraActive (ModelPlayer.hooks w) = true
  /\ ModelPlayer.stopped (ModelPlayer.media w) = [0%nat]
  /\ ModelPlayer.streamRef (ModelPlayer.media w) = Some 1%nat
  /\ (ModelPlayer.delay <$> ModelPlayer.timers (ModelPlayer.sched w) !! 1%nat)
     = Some 10500.
Proof. vm_compute. repeat split; reflexivity. Qed.


(** ** The edge heuristic *)

Section HeuristicFacts.
Context {Canvas : Type} (cv : OpenCV Canvas).
Import HeuristicPlayer.

Lemma detectToothbrush_edgeCount canvas n :
  OpencvDetection.edgeCount cv canvas = Some n ->
  OpencvDetection.detectToothbrush cv canvas = (n >? 1000).
Proof.
  intros E. unfold OpencvDetection.detectToothbrush. now rewrite E.
Qed.

Lemma analyzeImage_edgeCount cl canvas n :
  opencvReady cl = true ->
  OpencvDetection.edgeCount cv canvas = Some n ->
  analyzeImage cv cl (Some canvas) = (n >? 1000).
Proof.
  intros R E. unfold analyzeImage. now rewrite R, E.
Qed.




(** Had the callback read the count of the render in which it runs,
    the count of a step in progress would stay within the cap. *)
Lemma captureAndAnalyze_current_count_bounded f w step :
  currentStep (hooks w) = Some step ->
  captureCount (hooks w) <= attemptCap step ->
  let w' := captureAndAnalyze cv (hooks w) f w in
  stepCompleted (hooks w') = false ->
  captureCount (hooks w') <= attemptCap step.
Proof.
  intros S B. cbn zeta. unfold captureAndAnalyze.
  destruct (negb (video f) || negb (bool_decide (is_Some (canvas f)))); [auto|].
  rewrite S. destruct (isComplete cv (hooks w) f); [discriminate|].
  destruct (captureCount (hooks w) >=? attemptCap step) eqn:A; [discriminate|].
  intros _. cbn. rewrite Z.geb_leb in A. apply Z.leb_gt in A. lia.
Qed.

End HeuristicFacts.

(** ** The object-detector player *)

Section ModelFacts.
Import ModelPlayer.
Variable task : option Task.
Variable fixedMode : bool.
Variable customInterval : Z.
Variable isHandNearMouth : list Hand -> bool.

#[local] Abbreviation currentStep := (currentStep task).
#[local] Abbreviation checkStepCompletion := (checkStepCompletion task isHandNearMouth).
#[local] Abbreviation positiveEvidence := (positiveEvidence isHandNearMouth).
#[local] Abbreviation moveToNextStep := (moveToNextStep task fixedMode customInterval).
#[local] Abbreviation run := (run task fixedMode customInterval isHandNearMouth).
#[local] Abbreviation step := (step task fixedMode customInterval isHandNearMouth).
#[local] Abbreviation mount := (mount customInterval).

(** What the narration and timer primitives leave untouched. *)
Lemma hooks_cancelSpeech w :
  hooks (cancelSpeech w) = hooks (setIsPlaying false w).
Proof.
  unfold cancelSpeech.
  destruct (speaking (speech w)); cbn;
    destruct (speechUtteranceRef (speech w)); reflexivity.
Qed.

Lemma media_cancelSpeech w : media (cancelSpeech w) = media w.
Proof.
  unfold cancelSpeech.
  destruct (speaking (speech w)); cbn;
    destruct (speechUtteranceRef (speech w)); reflexivity.
Qed.

Lemma hooks_completeDetection cl w :
  hooks (completeDetection cl w)
  = hooks (setIsPlaying false
             (setIsStepComplete true
                (setDetectionStatus "Task detected!"
                   (match autoDetectTimeout cl with
                    | Some _ => setAutoDetectTimeout None w
                    | None => w
                    end)))).
Proof.
  unfold completeDetection.
  destruct (autoDetectTimeout cl); cbn -[cancelSpeech];
    rewrite hooks_cancelSpeech; reflexivity.
Qed.

Lemma isStepComplete_completeDetection cl w :
  isStepComplete (hooks (completeDetection cl w)) = true.
Proof.
  rewrite hooks_completeDetection. destruct (autoDetectTimeout cl); reflexivity.
Qed.

Lemma detectionProgress_completeDetection cl w :
  detectionProgress (hooks (completeDetection cl w)) = detectionProgress (hooks w).
Proof.
  rewrite hooks_completeDetection. destruct (autoDetectTimeout cl); reflexivity.
Qed.

(** The progress after one evaluation of a frame. *)
Lemma checkStepCompletion_progress cl detections landmarks w s :
  currentStep cl = Some s ->
  detectionProgress (hooks (checkStepCompletion cl detections landmarks w))
  = let prev := detectionProgress (hooks w) in
    if String.eqb (getActionTypeForStep (id s)) "brush_teeth" then
      if positiveEvidence w s detections landmarks then
        Z.min (prev + (if isHandNearMouth landmarks then 25 else 15)) 100
      else Z.max (prev - 5) 0
    else
      if positiveEvidence w s detections landmarks then Z.min (prev + 10) 100
      else Z.max (prev - 2) 0.
Proof.
  intros S. unfold ModelPlayer.checkStepCompletion, ModelPlayer.positiveEvidence.
  rewrite S. cbn zeta.
  destruct (String.eqb (getActionTypeForStep (id s)) "brush_teeth").
  - destruct (toothbrushDetected detections) eqn:D;
      destruct (isToothbrushInUpperFrame w detections);
      destruct (isHandNearMouth landmarks); cbn [andb orb];
      try reflexivity;
      destruct (detectionProgress cl >=? 80);
      rewrite ?detectionProgress_completeDetection; reflexivity.
  - destruct ((0 <? Z.of_nat (length detections)) || (0 <? Z.of_nat (length landmarks)));
      [destruct (detectionProgress cl >=? 80)|];
      rewrite ?detectionProgress_completeDetection; reflexivity.
Qed.


End ModelFacts.

(** ** The completion rule and the attempt counter *)

(** [C5] The heuristic classifier — [detectToothbrush] and the player's
    [analyzeImage], once the pipeline has produced an edge count —
    answers positive exactly when the count of non-zero edge pixels is
    strictly above 1000; a count of 1500 is positive. *)
Theorem heuristic_positive_iff_above_threshold
    {Canvas : Type} (cv : OpenCV Canvas) (canvas : Canvas) (n : Z) :
  OpencvDetection.edgeCount cv canvas = Some n ->
  OpencvDetection.threshold = 1000
  /\ (OpencvDetection.detectToothbrush cv canvas = true <-> 1000 < n)
  /\ (forall cl, HeuristicPlayer.opencvReady cl = true ->
        HeuristicPlayer.analyzeImage cv cl (Some canvas) = true <-> 1000 < n)
  /\ (n = 1500 ->
        OpencvDetection.detectToothbrush cv canvas = true
        /\ forall cl, HeuristicPlayer.opencvReady cl = true ->
             HeuristicPlayer.analyzeImage cv cl (Some canvas) = true).
Proof.
  intros E.
  assert (G : (n >? 1000) = true <-> 1000 < n) by (rewrite Z.gtb_ltb; apply Z.ltb_lt).
  split; [reflexivity|]. split; [|split].
  - now rewrite (detectToothbrush_edgeCount cv canvas n E).
  - intros cl R. now rewrite (analyzeImage_edgeCount cv cl canvas n R E).
  - intros ->. split.
    + now rewrite (detectToothbrush_edgeCount cv canvas 1500 E).
    + intros cl R. now rewrite (analyzeImage_edgeCount cv cl canvas 1500 R E).
Qed.

Lemma heuristic_positive_iff_above_threshold_witness :
  OpencvDetection.edgeCount pixelCv (replicate 1500 1) = Some 1500
  /\ OpencvDetection.detectToothbrush pixelCv (replicate 1500 1) = true.
Proof.
  assert (E : OpencvDetection.edgeCount pixelCv (replicate 1500 1) = Some 1500)
    by (vm_compute; reflexivity).
  split; [exact E|].
  destruct (heuristic_positive_iff_above_threshold pixelCv (replicate 1500 1) 1500 E)
    as (_ & _ & _ & H).
  exact (proj1 (H eq_refl)).
Defined.





(** The same run for any number of ticks: the callback scheduled on
    step 1 never sees a count other than 0, so the count grows with
    every tick and the cap is never applied. *)
Lemma stale_ticks (n : nat) : forall c : Z,
  let seen := HeuristicPlayer.mkHooks 0 false 0 true true in
  fold_left (HeuristicPlayer.step pixelCv)
    (repeat (HeuristicPlayer.Tick quietFrame) n)
    (HeuristicPlayer.mkWorld (HeuristicPlayer.mkHooks 0 false c true true)
       (Some seen) [])
  = HeuristicPlayer.mkWorld
      (HeuristicPlayer.mkHooks 0 false (c + Z.of_nat n) true true) (Some seen) [].
Proof.
  cbv zeta. induction n as [|n IH]; intros c.
  - cbn. now rewrite Z.add_0_r.
  - cbn [repeat fold_left].
    change (HeuristicPlayer.step pixelCv _ (HeuristicPlayer.Tick quietFrame))
      with (HeuristicPlayer.mkWorld
              (HeuristicPlayer.mkHooks 0 false (c + 1) true true)
              (Some (HeuristicPlayer.mkHooks 0 false 0 true true)) []).
    rewrite IH. do 2 f_equal. lia.
Qed.

Lemma attempt_count_grows_without_bound (n : nat) :
  let w := HeuristicPlayer.run pixelCv HeuristicPlayer.mount
             ([HeuristicPlayer.OpencvLoaded; HeuristicPlayer.CameraStarted]
              ++ repeat (HeuristicPlayer.Tick quietFrame) n) in
  HeuristicPlayer.stepCompleted (HeuristicPlayer.hooks w) = false
  /\ HeuristicPlayer.captureCount (HeuristicPlayer.hooks w) = Z.of_nat n.
Proof.
  cbv zeta. unfold HeuristicPlayer.run. rewrite fold_left_app.
  change (fold_left (HeuristicPlayer.step pixelCv)
            [HeuristicPlayer.OpencvLoaded; HeuristicPlayer.CameraStarted]
            HeuristicPlayer.mount)
    with (HeuristicPlayer.mkWorld (HeuristicPlayer.mkHooks 0 false 0 true true)
            (Some (HeuristicPlayer.mkHooks 0 false 0 true true)) []).
  rewrite stale_ticks. split; reflexivity.
Qed.

(** ** The progress score and the fallback timer *)

Section ProgressFacts.
Import ModelPlayer.
Variable task : option Task.
Variable fixedMode : bool.
Variable customInterval : Z.
Variable isHandNearMouth : list Hand -> bool.

(** Case analysis on the tests of a handler, innermost first. *)
Ltac split_tests :=
  repeat match goal with
    | |- context [match ?x with _ => _ end] =>
        lazymatch x with
        | context [match _ with _ => _ end] => fail
        | _ => destruct x eqn:?
        end
    end.

Lemma detectionProgress_cancelSpeech w :
  detectionProgress (hooks (cancelSpeech w)) = detectionProgress (hooks w).
Proof. now rewrite hooks_cancelSpeech. Qed.

Lemma detectionProgress_speak cl t throws w :
  detectionProgress (hooks (speak cl t throws w)) = detectionProgress (hooks w).
Proof.
  unfold speak. destruct (negb (userInteracted cl)); [reflexivity|].
  destruct (ttsAvailable cl && speechSynthesisRef (speech (cancelSpeech w)));
    [destruct throws|]; cbn -[cancelSpeech]; apply detectionProgress_cancelSpeech.
Qed.

Lemma detectionProgress_speakInstruction tk cl throws w :
  detectionProgress (hooks (speakInstruction tk cl throws w))
  = detectionProgress (hooks w).
Proof.
  unfold speakInstruction. destruct (currentStep tk cl); [|reflexivity].
  now rewrite detectionProgress_speak.
Qed.

Lemma detectionProgress_startDetection cl rnd w :
  detectionProgress (hooks (startDetection cl rnd w)) = detectionProgress (hooks w).
Proof.
  unfold startDetection.
  destruct (negb (bool_decide (is_Some (videoRef (media w)))) || _); reflexivity.
Qed.

Lemma detectionProgress_tryCamera cl acq rnd attempt w :
  detectionProgress (hooks (tryCamera cl acq rnd attempt w).1)
  = detectionProgress (hooks w).
Proof.
  unfold tryCamera. cbn zeta.
  destruct (videoRef _); [|reflexivity].
  destruct acq; try reflexivity.
  cbn [fst]. now rewrite detectionProgress_startDetection.
Qed.

Lemma detectionProgress_initCamera cl cam rnd attempt w :
  detectionProgress (hooks (initCamera cl cam rnd attempt w))
  = detectionProgress (hooks w).
Proof.
  funelim (initCamera cl cam rnd attempt w);
    pose proof (detectionProgress_tryCamera cl (cam attempt) rnd attempt w) as T;
    match goal with E : tryCamera _ _ _ _ _ = _ |- _ => rewrite E in T end;
    cbn [fst] in T.
  - exact T.
  - match goal with
    | IH : detectionProgress (hooks (initCamera _ _ _ _ _)) = _ |- _ => rewrite IH
    end.
    exact T.
  - rewrite <- T. unfold giveUp. cbn. unfold releaseStream. reflexivity.
Qed.

Lemma detectionProgress_utterance w :
  detectionProgress (hooks (utteranceStart w)) = detectionProgress (hooks w)
  /\ detectionProgress (hooks (utteranceEnd w)) = detectionProgress (hooks w)
  /\ detectionProgress (hooks (utteranceError w)) = detectionProgress (hooks w).
Proof.
  unfold utteranceStart, utteranceEnd, utteranceError.
  repeat split; split_tests; reflexivity.
Qed.

Lemma detectionProgress_cleanUp cl w :
  detectionProgress (hooks (cleanUp cl w)) = detectionProgress (hooks w).
Proof.
  unfold cleanUp, clearAllIntervals. cbn zeta.
  set (w1 := withMedia _ w).
  assert (E : detectionProgress (hooks w1) = detectionProgress (hooks w)) by reflexivity.
  rewrite <- E, <- (detectionProgress_cancelSpeech w1).
  destruct (autoDetectTimeout cl);
    destruct (timeoutRef (sched (clearDetectionInterval (cancelSpeech w1))));
    reflexivity.
Qed.

Lemma progressInRange_checkStepCompletion cl detections landmarks w :
  progressInRange w ->
  progressInRange (checkStepCompletion task isHandNearMouth cl detections landmarks w).
Proof.
  unfold progressInRange. intros R.
  destruct (currentStep task cl) as [s|] eqn:S.
  - rewrite (checkStepCompletion_progress task isHandNearMouth _ _ _ _ s S).
    cbn zeta. split_tests; lia.
  - unfold checkStepCompletion. now rewrite S.
Qed.

Lemma progressInRange_step w e :
  progressInRange w ->
  progressInRange (step task fixedMode customInterval isHandNearMouth w e).
Proof.
  unfold progressInRange. intros R. destruct e; cbn [step].
  - now rewrite detectionProgress_speakInstruction.
  - exact R.
  - exact R.
  - now rewrite detectionProgress_initCamera.
  - unfold detectionTick.
    destruct (negb (bool_decide (is_Some (videoRef (media w)))) || _ || _);
      [exact R|].
    destruct detect; [|exact R].
    now apply progressInRange_checkStepCompletion.
  - unfold autoDetect. rewrite detectionProgress_completeDetection. cbn. lia.
  - unfold moveToNextStep. destruct task; [|exact R].
    destruct (isLastStep _ cl); [cbn; lia|].
    rewrite detectionProgress_speakInstruction, detectionProgress_startDetection.
    cbn. lia.
  - now rewrite detectionProgress_speak.
  - now rewrite (proj1 (detectionProgress_utterance w)).
  - now rewrite (proj1 (proj2 (detectionProgress_utterance w))).
  - now rewrite (proj2 (proj2 (detectionProgress_utterance w))).
  - now rewrite detectionProgress_cleanUp.
Qed.

Lemma progressInRange_run es : forall w,
  progressInRange w ->
  progressInRange (run task fixedMode customInterval isHandNearMouth w es).
Proof.
  induction es as [|e es IH]; intros w R; [exact R|].
  cbn. apply IH. now apply progressInRange_step.
Qed.

End ProgressFacts.

(** [C2] Whatever the task, the step and the sequence of events — any
    number of ticks with positive or negative evidence, read through
    any render, interleaved with the fallback timer, step changes and
    narration — the progress score of the model player stays within
    [[0, 100]]; a positive tick yields [min(prev + k, 100)] and a
    negative one [max(prev - k, 0)]. *)
Theorem progress_always_within_0_100
    (task : option ModelPlayer.Task) (fixedMode : bool) (customInterval : Z)
    (isHandNearMouth : list ModelPlayer.Hand -> bool)
    (synth : bool) (video : option Z) (model : bool)
    (es : list ModelPlayer.Event) :
  let w := ModelPlayer.run task fixedMode customInterval isHandNearMouth
             (ModelPlayer.mount customInterval synth video model) es in
  0 <= ModelPlayer.detectionProgress (ModelPlayer.hooks w) <= 100.
Proof.
  cbv zeta. apply progressInRange_run. unfold ModelPlayer.progressInRange. cbn. lia.
Qed.

Lemma floor_of_scaled_random (r : Q) (k : Z) :
  Js.is_random r -> 0 < k ->
  0 <= Js.Math_floor (r * inject_Z k) < k.
Proof.
  intros [R0 R1] K. unfold Js.Math_floor. split.
  - change 0 with (Qfloor 0). apply Qfloor_resp_le.
    apply Qmult_le_0_compat; [exact R0|].
    change 0%Q with (inject_Z 0). rewrite <- Zle_Qle. lia.
  - assert (P : (0 < inject_Z k)%Q).
    { change 0%Q with (inject_Z 0). rewrite <- Zlt_Qlt. lia. }
    assert (L : (r * inject_Z k < 1 * inject_Z k)%Q)
      by (apply Qmult_lt_compat_r; assumption).
    rewrite Qmult_1_l in L.
    pose proof (Qfloor_le (r * inject_Z k)) as F.
    rewrite Zlt_Qlt. eapply Qle_lt_trans; eassumption.
Qed.

Lemma Js_gt_true (a b : Q) : Js.gt a b = true <-> (b < a)%Q.
Proof.
  unfold Js.gt. rewrite negb_true_iff, <- not_true_iff_false, Qle_bool_iff.
  split; [apply Qnot_le_lt | apply Qlt_not_le].
Qed.



(** ** The evidence increments *)

Lemma brush_teeth_steps (stepId : string) :
  ModelPlayer.getActionTypeForStep stepId = "brush_teeth"
  <-> stepId = "step-5" \/ stepId = "step-6".
Proof.
  unfold ModelPlayer.getActionTypeForStep, ModelPlayer.stepActionMap.
  cbn [list_to_map foldr uncurry fst snd].
  repeat (rewrite lookup_insert; case_decide;
          [subst stepId; cbn;
           split; [intros X; try discriminate X; auto
                  | intros [X|X]; try discriminate X; reflexivity] |]).
  rewrite lookup_empty. cbn. split; [discriminate | intros [X|X]; congruence].
Qed.

(** [C6], as stated, fails.  On step 1, whose action type has no case
    of its own, a tick that sees a toothbrush at confidence 0.62 in the
    upper part of the frame together with a hand counts as positive
    evidence and raises the progress from 0 to 10, neither 15 nor 25. *)
Lemma positive_tick_on_step_1_adds_10 :
  let cl := ModelPlayer.hooks playerStart in
  let hand := ModelPlayer.simulateHandPose (8 # 10) originPoint in
  let w := ModelPlayer.checkStepCompletion (Some brushingTask) anyHand cl
             [toothbrush062] hand playerStart in
  (ModelPlayer.id <$> ModelPlayer.currentStep (Some brushingTask) cl) = Some "step-1"
  /\ anyHand hand = true
  /\ ModelPlayer.toothbrushDetected [toothbrush062] = true
  /\ ModelPlayer.isToothbrushInUpperFrame playerStart [toothbrush062] = true
  /\ ModelPlayer.detectionProgress (ModelPlayer.hooks playerStart) = 0
  /\ ModelPlayer.detectionProgress (ModelPlayer.hooks w) = 10.
Proof. vm_compute. repeat split; reflexivity. Qed.

(** [C6], amended.  On a tick with positive evidence the progress
    becomes [min(prev + k, 100)], where for the steps of action type
    [brush_teeth] (step-5 and step-6) [k] is 25 when the toothbrush is
    detected together with a hand near the mouth and 15 otherwise, and
    for every other step [k] is 10.  In particular, on a [brush_teeth]
    step, a toothbrush reported at confidence 0.62 with its box
    starting in the upper 60% of the frame, together with a hand near
    the mouth, adds 25 (up to the bound 100). *)
Theorem positive_tick_increment
    (task : option ModelPlayer.Task) (isHandNearMouth : list ModelPlayer.Hand -> bool)
    (cl : ModelPlayer.Hooks) (detections : list ModelPlayer.CocoDetection)
    (landmarks : list ModelPlayer.Hand) (w : ModelPlayer.World)
    (s : ModelPlayer.TaskStep) :
  ModelPlayer.currentStep task cl = Some s ->
  let prev := ModelPlayer.detectionProgress (ModelPlayer.hooks w) in
  let next := ModelPlayer.detectionProgress
                (ModelPlayer.hooks
                   (ModelPlayer.checkStepCompletion task isHandNearMouth cl
                      detections landmarks w)) in
  let brushing := ModelPlayer.id s = "step-5" \/ ModelPlayer.id s = "step-6" in
  (ModelPlayer.positiveEvidence isHandNearMouth w s detections landmarks = true ->
     (brushing -> isHandNearMouth landmarks = true -> next = Z.min (prev + 25) 100)
     /\ (brushing -> isHandNearMouth landmarks = false -> next = Z.min (prev + 15) 100)
     /\ (~ brushing -> next = Z.min (prev + 10) 100)
     /\ next <= 100)
  /\ (forall d h,
        brushing ->
        ModelPlayer.toothbrushDetection detections = Some d ->
        (ModelPlayer.score d == 62 # 100)%Q ->
        ModelPlayer.videoRef (ModelPlayer.media w) = Some h ->
        (ModelPlayer.bbox1 d < inject_Z h * (6 # 10))%Q ->
        isHandNearMouth landmarks = true ->
        next = Z.min (prev + 25) 100).
Proof.
  intros S. cbv zeta.
  rewrite (checkStepCompletion_progress task isHandNearMouth _ _ _ _ s S). cbv zeta.
  pose proof (brush_teeth_steps (ModelPlayer.id s)) as B.
  destruct (String.eqb_spec (ModelPlayer.getActionTypeForStep (ModelPlayer.id s))
              "brush_teeth") as [A|A].
  - apply B in A. split.
    + intros ->. repeat split; try (intros _ ->; reflexivity); try tauto.
      destruct (isHandNearMouth landmarks); lia.
    + intros d h _ D Sc V U H.
      unfold ModelPlayer.positiveEvidence.
      destruct (String.eqb_spec (ModelPlayer.getActionTypeForStep (ModelPlayer.id s))
                  "brush_teeth") as [_|N]; [|apply B in A; contradiction].
      unfold ModelPlayer.toothbrushDetected. rewrite D.
      assert (G : Js.gt (ModelPlayer.score d) (6 # 10) = true).
      { apply Js_gt_true. rewrite Sc. reflexivity. }
      rewrite G, H. rewrite orb_true_r. reflexivity.
  - assert (N : ~ (ModelPlayer.id s = "step-5" \/ ModelPlayer.id s = "step-6"))
      by (intros X; apply B in X; contradiction).
    split.
    + intros ->. repeat split; try tauto. lia.
    + intros d h X. contradiction.
Qed.

Lemma positive_tick_increment_witness :
  let cl5 := ModelPlayer.mkHooks 4 false false 15 "Camera ready" true None true 40 1
               true None in
  let hand := ModelPlayer.simulateHandPose (8 # 10) originPoint in
  let w := ModelPlayer.setDetectionProgress (fun _ => 40) playerStart in
  ModelPlayer.detectionProgress
    (ModelPlayer.hooks
       (ModelPlayer.checkStepCompletion (Some brushingTask) anyHand cl5
          [toothbrush062] hand w)) = 65.
Proof.
  cbv zeta.
  set (cl5 := ModelPlayer.mkHooks 4 false false 15 "Camera ready" true None true 40 1
                 true None).
  pose (s5 := {| ModelPlayer.id := "step-5";
                 ModelPlayer.instruction := "Instruction 5";
                 ModelPlayer.audioPrompt := "Prompt 5";
                 ModelPlayer.successCriteria := "Criteria 5";
                 ModelPlayer.defaultRepetition := None |}).
  assert (S : ModelPlayer.currentStep (Some brushingTask) cl5 = Some s5) by reflexivity.
  destruct (positive_tick_increment (Some brushingTask) anyHand cl5 [toothbrush062]
              (ModelPlayer.simulateHandPose (8 # 10) originPoint)
              (ModelPlayer.setDetectionProgress (fun _ => 40) playerStart) s5 S)
    as [_ Sc].
  rewrite (Sc toothbrush062 480).
  - reflexivity.
  - left; reflexivity.
  - reflexivity.
  - reflexivity.
  - reflexivity.
  - reflexivity.
  - reflexivity.
Defined.

(** ** Narration *)

Section NarrationFacts.
Import ModelPlayer.
Variable task : option Task.
Variable fixedMode : bool.
Variable customInterval : Z.
Variable isHandNearMouth : list Hand -> bool.

(** The narration state [cancelSpeech] leaves. *)
Lemma speech_cancelSpeech w :
  let s := speech w in
  speech (cancelSpeech w)
  = mkSpeech (speechSynthesisRef s) None
      (match speechUtteranceRef s with
       | Some r => alter detached r (utterances s)
       | None => utterances s
       end)
      (if speaking s then [] else queue s)
      (audioFallbacks s).
Proof.
  destruct w as [h [sr r us q a] m sc]. cbv zeta. unfold cancelSpeech, speaking.
  cbn [speech speechSynthesisRef queue].
  destruct (sr && negb (bool_decide (q = []))); destruct r; reflexivity.
Qed.




(** The narration state [speak] leaves when it does not return early. *)
Lemma speech_speak cl t throws w :
  userInteracted cl = true ->
  let s := speech (cancelSpeech w) in
  speech (speak cl t throws w)
  = if ttsAvailable cl && speechSynthesisRef s then
      mkSpeech (speechSynthesisRef s) (Some (length (utterances s)))
        (utterances s ++ [{| text := t; onend := true |}])
        (if throws then queue s else queue s ++ [length (utterances s)])
        (if throws then audioFallbacks s ++ [t] else audioFallbacks s)
    else
      mkSpeech (speechSynthesisRef s) (speechUtteranceRef s) (utterances s)
        (queue s) (audioFallbacks s ++ [t]).
Proof.
  intros U. cbv zeta. unfold speak. rewrite U. cbn [negb].
  destruct (ttsAvailable cl && speechSynthesisRef (speech (cancelSpeech w)));
    [destruct throws|]; reflexivity.
Qed.












End NarrationFacts.



(** ** Camera acquisition *)

Section CameraFacts.
Import ModelPlayer.

Lemma initCamera_unfold cl cam rnd attempt w :
  initCamera cl cam rnd attempt w
  = match tryCamera cl (cam attempt) rnd attempt w with
    | (w', None) => w'
    | (w', Some err) =>
        if (attempt <? 3)%nat
        then initCamera cl cam rnd (S attempt)
               (logCamera (BackOff (1000 * Z.of_nat attempt)) w')
        else giveUp err w'
    end.
Proof.
  funelim (initCamera cl cam rnd attempt w);
    match goal with E : tryCamera _ _ _ _ _ = _ |- _ => rewrite E end.
  - reflexivity.
  - destruct (Nat.ltb_spec attempt 3); [reflexivity | lia].
  - destruct (Nat.ltb_spec attempt 3); [lia | reflexivity].
Qed.

Lemma tryCamera_fails cl acq rnd n w e :
  outcome (videoRef (media w)) acq = Some e ->
  exists w1,
    tryCamera cl acq rnd n w = (w1, Some e)
    /\ videoRef (media w1) = videoRef (media w)
    /\ cameraTrace (media w1) = cameraTrace (media w) ++ [Attempt n].
Proof.
  unfold outcome, tryCamera. cbn zeta.
  destruct w as [h s [v m st sp nx tr] sc]. cbn.
  destruct v as [hgt|]; destruct st; cbn.
  all: try (intros [= <-]; eexists; repeat split; reflexivity).
  all: destruct acq; intros [= <-]; eexists; repeat split; reflexivity.
Qed.

Lemma tryCamera_succeeds cl acq rnd n w :
  outcome (videoRef (media w)) acq = None ->
  exists w1,
    tryCamera cl acq rnd n w = (w1, None)
    /\ cameraTrace (media w1) = cameraTrace (media w) ++ [Attempt n]
    /\ cameraActive (hooks w1) = true
    /\ cameraError (hooks w1) = None.
Proof.
  unfold outcome, tryCamera. cbn zeta.
  destruct w as [h s [v m st sp nx tr] sc]. cbn.
  destruct v as [hgt|]; [|discriminate].
  destruct acq; try discriminate. intros _.
  unfold startDetection.
  destruct st; cbn; destruct m; cbn; eexists; repeat split; reflexivity.
Qed.

Lemma giveUp_result err w :
  cameraTrace (media (giveUp err w)) = cameraTrace (media w)
  /\ cameraActive (hooks (giveUp err w)) = false
  /\ cameraError (hooks (giveUp err w)) = Some (errorMessage err)
  /\ detectionStatus (hooks (giveUp err w)) = errorMessage err
  /\ streamRef (media (giveUp err w)) = None.
Proof.
  unfold giveUp, releaseStream. cbn.
  destruct (streamRef (media w)) eqn:E; cbn; rewrite ?E; repeat split; reflexivity.
Qed.

End CameraFacts.

(** [C9] [initCamera()] (first attempt numbered 1) makes at most three
    attempts.  The first attempt that succeeds ends the sequence with
    the camera active and no error; between a failed attempt [n] and
    the next the page waits [1000 * n] ms (1 s, then 2 s).  When all
    three fail the camera is inactive and the error shown is the
    category of the third failure: "No camera found" for a
    [NotFoundError], "Permission denied" for a [NotAllowedError],
    "Camera in use" for a [NotReadableError], "Camera error" for
    anything else. *)
Theorem camera_acquisition_retries
    (cl : ModelPlayer.Hooks) (cam : nat -> ModelPlayer.Acquisition) (rnd : Q)
    (w : ModelPlayer.World) :
  let v := ModelPlayer.videoRef (ModelPlayer.media w) in
  let tr := ModelPlayer.cameraTrace (ModelPlayer.media w) in
  let w' := ModelPlayer.initCamera cl cam rnd 1 w in
  let trace' := ModelPlayer.cameraTrace (ModelPlayer.media w') in
  let active' := ModelPlayer.cameraActive (ModelPlayer.hooks w') in
  let error' := ModelPlayer.cameraError (ModelPlayer.hooks w') in
  (ModelPlayer.outcome v (cam 1%nat) = None ->
     trace' = tr ++ [ModelPlayer.Attempt 1]
     /\ active' = true /\ error' = None)
  /\ (forall e1,
        ModelPlayer.outcome v (cam 1%nat) = Some e1 ->
        ModelPlayer.outcome v (cam 2%nat) = None ->
        trace' = tr ++ [ModelPlayer.Attempt 1; ModelPlayer.BackOff 1000;
                        ModelPlayer.Attempt 2]
        /\ active' = true /\ error' = None)
  /\ (forall e1 e2,
        ModelPlayer.outcome v (cam 1%nat) = Some e1 ->
        ModelPlayer.outcome v (cam 2%nat) = Some e2 ->
        ModelPlayer.outcome v (cam 3%nat) = None ->
        trace' = tr ++ [ModelPlayer.Attempt 1; ModelPlayer.BackOff 1000;
                        ModelPlayer.Attempt 2; ModelPlayer.BackOff 2000;
                        ModelPlayer.Attempt 3]
        /\ active' = true /\ error' = None)
  /\ (forall e1 e2 e3,
        ModelPlayer.outcome v (cam 1%nat) = Some e1 ->
        ModelPlayer.outcome v (cam 2%nat) = Some e2 ->
        ModelPlayer.outcome v (cam 3%nat) = Some e3 ->
        trace' = tr ++ [ModelPlayer.Attempt 1; ModelPlayer.BackOff 1000;
                        ModelPlayer.Attempt 2; ModelPlayer.BackOff 2000;
                        ModelPlayer.Attempt 3]
        /\ active' = false
        /\ error' = Some (ModelPlayer.errorMessage e3)
        /\ ModelPlayer.streamRef (ModelPlayer.media w') = None)
  /\ ModelPlayer.errorMessage (ModelPlayer.DOMException "NotFoundError") = "No camera found"
  /\ ModelPlayer.errorMessage (ModelPlayer.DOMException "NotAllowedError") = "Permission denied"
  /\ ModelPlayer.errorMessage (ModelPlayer.DOMException "NotReadableError") = "Camera in use"
  /\ forall m, ModelPlayer.errorMessage (ModelPlayer.Error m) = "Camera error".
Proof.
  cbv zeta.
  assert (F : forall n w0 e,
             ModelPlayer.outcome (ModelPlayer.videoRef (ModelPlayer.media w0)) (cam n) = Some e ->
             (n < 3)%nat ->
             exists w1,
               ModelPlayer.initCamera cl cam rnd n w0
               = ModelPlayer.initCamera cl cam rnd (S n) w1
               /\ ModelPlayer.videoRef (ModelPlayer.media w1)
                  = ModelPlayer.videoRef (ModelPlayer.media w0)
               /\ ModelPlayer.cameraTrace (ModelPlayer.media w1)
                  = ModelPlayer.cameraTrace (ModelPlayer.media w0)
                    ++ [ModelPlayer.Attempt n; ModelPlayer.BackOff (1000 * Z.of_nat n)]).
  { intros n w0 e O L.
    destruct (tryCamera_fails cl (cam n) rnd n w0 e O) as (w1 & T & V & Tr).
    eexists. rewrite initCamera_unfold, T.
    destruct (Nat.ltb_spec n 3); [|lia].
    split; [reflexivity|]. split; [exact V|].
    cbn. rewrite Tr, <- app_assoc. reflexivity. }
  assert (G : forall n w0,
             ModelPlayer.outcome (ModelPlayer.videoRef (ModelPlayer.media w0)) (cam n) = None ->
             let w1 := ModelPlayer.initCamera cl cam rnd n w0 in
             ModelPlayer.cameraTrace (ModelPlayer.media w1)
             = ModelPlayer.cameraTrace (ModelPlayer.media w0) ++ [ModelPlayer.Attempt n]
             /\ ModelPlayer.cameraActive (ModelPlayer.hooks w1) = true
             /\ ModelPlayer.cameraError (ModelPlayer.hooks w1) = None).
  { intros n w0 O. cbv zeta.
    destruct (tryCamera_succeeds cl (cam n) rnd n w0 O) as (w1 & T & R).
    rewrite initCamera_unfold, T. exact R. }
  split; [|split; [|split; [|split]]].
  - intros O. apply G. exact O.
  - intros e1 O1 O2.
    destruct (F 1%nat w e1 O1 ltac:(lia)) as (w1 & -> & V1 & T1).
    rewrite <- V1 in O2. destruct (G 2%nat w1 O2) as (Tr & A & E).
    rewrite Tr, T1, <- app_assoc. auto.
  - intros e1 e2 O1 O2 O3.
    destruct (F 1%nat w e1 O1 ltac:(lia)) as (w1 & -> & V1 & T1).
    rewrite <- V1 in O2, O3.
    destruct (F 2%nat w1 e2 O2 ltac:(lia)) as (w2 & -> & V2 & T2).
    rewrite <- V2 in O3. destruct (G 3%nat w2 O3) as (Tr & A & E).
    rewrite Tr, T2, T1, <- !app_assoc. auto.
  - intros e1 e2 e3 O1 O2 O3.
    destruct (F 1%nat w e1 O1 ltac:(lia)) as (w1 & -> & V1 & T1).
    rewrite <- V1 in O2, O3.
    destruct (F 2%nat w1 e2 O2 ltac:(lia)) as (w2 & -> & V2 & T2).
    rewrite <- V2 in O3.
    destruct (tryCamera_fails cl (cam 3%nat) rnd 3 w2 e3 O3) as (w3 & T & V & Tr).
    rewrite initCamera_unfold, T. cbn [Nat.ltb Nat.leb].
    destruct (giveUp_result e3 w3) as (GT & GA & GE & _ & GS).
    rewrite GT, GA, GE, GS, Tr, T2, T1, <- !app_assoc. auto.
  - repeat split; reflexivity.
Qed.

Lemma camera_acquisition_retries_witness :
  let denied (_ : nat) :=
    ModelPlayer.GetUserMediaRejects (ModelPlayer.DOMException "NotAllowedError") in
  let w' := ModelPlayer.initCamera (ModelPlayer.hooks playerStart) denied 0 1 playerStart in
  ModelPlayer.cameraTrace (ModelPlayer.media w')
  = [ModelPlayer.Attempt 1; ModelPlayer.BackOff 1000; ModelPlayer.Attempt 2;
     ModelPlayer.BackOff 2000; ModelPlayer.Attempt 3]
  /\ ModelPlayer.cameraActive (ModelPlayer.hooks w') = false
  /\ ModelPlayer.cameraError (ModelPlayer.hooks w') = Some "Permission denied".
Proof.
  cbv zeta.
  destruct (camera_acquisition_retries (ModelPlayer.hooks playerStart)
              (fun _ => ModelPlayer.GetUserMediaRejects
                          (ModelPlayer.DOMException "NotAllowedError"))
              0 playerStart) as (_ & _ & _ & H & _).
  destruct (H _ _ _ eq_refl eq_refl eq_refl) as (A & B & C & _).
  split; [exact A|]. split; [exact B | exact C].
Defined.

(** ** The guidance call and the chat page *)

Section GuidanceFacts.
Import Gemini GuidancePage.
Variable JSON_parse : string -> option json.
Variable JSON_stringify : json -> string.

Lemma isMissing_without_field v k :
  hasField v k = false -> isMissing v k <> Some false.
Proof.
  unfold hasField, isMissing. destruct (property v k); congruence.
Qed.

Lemma validate_incomplete v k :
  In k requiredFields -> hasField v k = false -> exists msg, validate v = inr msg.
Proof.
  intros K H. apply isMissing_without_field in H. unfold validate.
  destruct K as [<- | [<- | [<- | []]]];
    repeat match goal with
      | |- context [match isMissing v ?f with _ => _ end] =>
          destruct (isMissing v f) as [[]|]
      end; try congruence; eauto.
Qed.

Lemma getParentGuidance_incomplete raw v k :
  JSON_parse (responseText raw) = Some v ->
  In k requiredFields -> hasField v k = false ->
  getParentGuidance JSON_parse (Text raw) = inr retryMessage.
Proof.
  intros P K H. unfold getParentGuidance. rewrite P.
  destruct (validate_incomplete v k K H) as [msg ->]. reflexivity.
Qed.

(** White space and case folding. *)
Lemma isSpace_lowerChar c : JsString.isSpace (JsString.lowerChar c) = JsString.isSpace c.
Proof. destruct c as [[] [] [] [] [] [] [] []]; reflexivity. Qed.

Lemma allSpace_toLowerCase s :
  JsString.allSpace (JsString.toLowerCase s) = JsString.allSpace s.
Proof.
  induction s as [|c r IH]; [reflexivity|]. cbn. now rewrite isSpace_lowerChar, IH.
Qed.

Lemma includes_not_allSpace s c k :
  JsString.includes s (String c k) = true ->
  JsString.isSpace c = false ->
  JsString.allSpace s = false.
Proof.
  intros I C. induction s as [|a r IH]; [discriminate|].
  cbn in I. cbn [JsString.allSpace].
  apply orb_prop in I. destruct I as [I | I].
  - apply andb_prop in I. destruct I as [E _].
    apply Ascii.eqb_eq in E. subst a. now rewrite C.
  - rewrite (IH I). apply andb_false_r.
Qed.

Lemma trimStart_not_allSpace s :
  JsString.allSpace s = false ->
  exists c r, JsString.trimStart s = String c r /\ JsString.isSpace c = false.
Proof.
  induction s as [|a r IH]; [discriminate|]. cbn.
  destruct (JsString.isSpace a) eqn:A; cbn; [exact IH | eauto].
Qed.

Lemma trim_not_allSpace s :
  JsString.allSpace s = false -> JsString.trim s <> EmptyString.
Proof.
  intros H. destruct (trimStart_not_allSpace s H) as (c & r & E & C).
  unfold JsString.trim. rewrite E. cbn. rewrite C.
  destruct (JsString.trimEnd r); discriminate.
Qed.

Lemma general_query_not_blank query :
  isGeneralQuery query = true -> JsString.trim query <> EmptyString.
Proof.
  intros G. apply trim_not_allSpace. rewrite <- allSpace_toLowerCase.
  unfold isGeneralQuery, GENERAL_KEYWORDS in G. cbn [existsb] in G.
  repeat (apply orb_prop in G; destruct G as [G | G]);
    try discriminate;
    eapply includes_not_allSpace; try exact G; reflexivity.
Qed.

Lemma contextMessages_not_general msgs m :
  m ∈ contextMessages msgs -> isGeneral m = false.
Proof.
  unfold contextMessages. intros H. apply list_elem_of_filter in H.
  destruct H as [H _]. now apply negb_true_iff in H.
Qed.

End GuidanceFacts.

(** [C8] Whenever the parsed response lacks one of the top-level
    fields [support], [actionPlan] or [therapySuggestions] — in
    particular [therapySuggestions] — [getParentGuidance] does not
    return it but throws the generic retry error, and [handleSend],
    for a message it forwards to the API, appends the guide's generic
    error reply instead of the response. *)
Theorem incomplete_response_is_rejected
    (JSON_parse : string -> option Gemini.json)
    (JSON_stringify : Gemini.json -> string)
    (raw : string) (response : Gemini.json) (k : string)
    (st : GuidancePage.State) :
  JSON_parse (Gemini.responseText raw) = Some response ->
  In k Gemini.requiredFields ->
  Gemini.hasField response k = false ->
  Gemini.getParentGuidance JSON_parse (Gemini.Text raw)
  = inr "Failed to get guidance. Please try again."
  /\ (JsString.trim (GuidancePage.input st) <> EmptyString ->
      GuidancePage.isLoading st = false ->
      GuidancePage.isGeneralQuery (GuidancePage.input st) = false ->
      GuidancePage.handleSend JSON_parse JSON_stringify (Gemini.Text raw) st
      = (GuidancePage.mkState
           (GuidancePage.messages st
            ++ [{| GuidancePage.sender := GuidancePage.parent;
                   GuidancePage.content := GuidancePage.Plain (GuidancePage.input st);
                   GuidancePage.isGeneral := false |}]
            ++ [{| GuidancePage.sender := GuidancePage.guide;
                   GuidancePage.content :=
                     GuidancePage.Plain "Sorry, I encountered an error. Please try again later.";
                   GuidancePage.isGeneral := false |}])
           EmptyString false,
         [{| GuidancePage.prompt := GuidancePage.input st;
             GuidancePage.context :=
               GuidancePage.contextOf JSON_stringify (GuidancePage.messages st) |}])).
Proof.
  intros P K H.
  pose proof (getParentGuidance_incomplete JSON_parse raw response k P K H) as G.
  split; [exact G|].
  intros T L Q. unfold GuidancePage.handleSend.
  apply String.eqb_neq in T. rewrite T, L, Q, G. cbn [orb].
  rewrite <- app_assoc. reflexivity.
Qed.

Lemma incomplete_response_is_rejected_witness :
  Gemini.hasField incompleteJson "therapySuggestions" = false
  /\ Gemini.getParentGuidance parseKnown (Gemini.Text incompleteAnswer)
     = inr "Failed to get guidance. Please try again.".
Proof.
  split; [reflexivity|].
  refine (proj1 (incomplete_response_is_rejected parseKnown stringifyKnown
                   incompleteAnswer incompleteJson "therapySuggestions"
                   (GuidancePage.mkState [] EmptyString false) _ _ _)).
  - vm_compute. reflexivity.
  - right; right; left; reflexivity.
  - reflexivity.
Defined.

(** [C10], as stated, fails in its last part.  After the general
    question "What is the weather today?" (answered by the fixed reply
    without any API call), the next message is sent to the API with a
    context string that is exactly that general question: only the
    fixed reply carries the [isGeneral] flag, the parent's own message
    does not. *)
Lemma general_question_stays_in_later_context :
  let result :=
    GuidancePage.converse parseKnown stringifyKnown
      [("What is the weather today?", Gemini.Rejects);
       ("My son will not sleep", Gemini.Rejects)]
      (GuidancePage.mkState [] EmptyString false) in
  GuidancePage.isGeneralQuery "What is the weather today?" = true
  /\ GuidancePage.isGeneralQuery "My son will not sleep" = false
  /\ result.2 = [{| GuidancePage.prompt := "My son will not sleep";
                    GuidancePage.context := "What is the weather today?" |}].
Proof. vm_compute. repeat split; reflexivity. Qed.

(** [C10], amended.  For every message that [handleSend] accepts (it is
    not loading) and that contains one of the keywords 'weather',
    'time', 'capital', 'how old', 'who is' regardless of case, the page
    makes no API call and appends the parent's message followed by the
    fixed guide reply, which is flagged [isGeneral]; and the context
    string of any API call is built only from messages without that
    flag, so the fixed reply never enters it. *)
Theorem general_query_gets_fixed_reply
    (JSON_parse : string -> option Gemini.json)
    (JSON_stringify : Gemini.json -> string)
    (gen : Gemini.Generation) (st : GuidancePage.State) :
  GuidancePage.isLoading st = false ->
  GuidancePage.isGeneralQuery (GuidancePage.input st) = true ->
  GuidancePage.handleSend JSON_parse JSON_stringify gen st
  = (GuidancePage.mkState
       (GuidancePage.messages st
        ++ [{| GuidancePage.sender := GuidancePage.parent;
               GuidancePage.content := GuidancePage.Plain (GuidancePage.input st);
               GuidancePage.isGeneral := false |};
            {| GuidancePage.sender := GuidancePage.guide;
               GuidancePage.content :=
                 GuidancePage.Plain "I specialize in neurodevelopmental guidance. For general questions like this, please try a different resource.";
               GuidancePage.isGeneral := true |}])
       EmptyString false,
     [])
  /\ (forall gen' st' call,
        call ∈ (GuidancePage.handleSend JSON_parse JSON_stringify gen' st').2 ->
        GuidancePage.context call
        = JsString.join " "
            (map (GuidancePage.contentText JSON_stringify)
                 (GuidancePage.contextMessages (GuidancePage.messages st')))
        /\ (GuidancePage.generalReply
            ∉ GuidancePage.contextMessages (GuidancePage.messages st'))
        /\ forall m, m ∈ GuidancePage.contextMessages (GuidancePage.messages st') ->
                     GuidancePage.isGeneral m = false).
Proof.
  intros L G. split.
  - unfold GuidancePage.handleSend.
    pose proof (general_query_not_blank _ G) as T.
    apply String.eqb_neq in T. rewrite T, L, G. cbn [orb].
    rewrite <- app_assoc. reflexivity.
  - intros gen' st' call H.
    split; [|split].
    + unfold GuidancePage.handleSend in H.
      destruct (String.eqb _ EmptyString || GuidancePage.isLoading st'); [inversion H|].
      destruct (GuidancePage.isGeneralQuery (GuidancePage.input st')); [inversion H|].
      destruct (Gemini.getParentGuidance JSON_parse gen'); cbn in H;
        apply list_elem_of_singleton in H; subst call; reflexivity.
    + intros M. apply contextMessages_not_general in M. discriminate.
    + intros m. apply contextMessages_not_general.
Qed.

Lemma general_query_gets_fixed_reply_witness :
  GuidancePage.handleSend parseKnown stringifyKnown Gemini.Rejects
    (GuidancePage.mkState [] "What time is it?" false)
  = (GuidancePage.mkState
       [{| GuidancePage.sender := GuidancePage.parent;
           GuidancePage.content := GuidancePage.Plain "What time is it?";
           GuidancePage.isGeneral := false |};
        GuidancePage.generalReply]
       EmptyString false,
     []).
Proof.
  exact (proj1 (general_query_gets_fixed_reply parseKnown stringifyKnown Gemini.Rejects
                  (GuidancePage.mkState [] "What time is it?" false)
                  eq_refl eq_refl)).
Defined.

(** * Further properties of the sources *)

(** ** The edge-heuristic player *)

Section HeuristicMore.
Context {Canvas : Type} (cv : OpenCV Canvas).
Import HeuristicPlayer.


Lemma captureAndAnalyze_deps cl f w :
  currentStepIndex (hooks (captureAndAnalyze cv cl f w)) = currentStepIndex (hooks w)
  /\ isCameraActive (hooks (captureAndAnalyze cv cl f w)) = isCameraActive (hooks w).
Proof.
  unfold captureAndAnalyze.
  destruct (negb (video f) || _); [auto|].
  destruct (currentStep cl); [|auto].
  destruct (isComplete cv cl f); [auto|].
  destruct (captureCount cl >=? _); auto.
Qed.

Lemma commit_same_deps prev w :
  currentStepIndex (hooks w) = currentStepIndex prev ->
  isCameraActive (hooks w) = isCameraActive prev ->
  commit prev w = w.
Proof.
  intros A B. unfold commit. rewrite A, B.
  now rewrite !bool_decide_eq_true_2 by reflexivity.
Qed.

Lemma step_Tick w f cl :
  intervalRef w = Some cl ->
  step cv w (Tick f) = captureAndAnalyze cv cl f w.
Proof.
  intros I. cbn. rewrite I.
  destruct (captureAndAnalyze_deps cl f w) as [A B].
  now apply commit_same_deps.
Qed.

Lemma captureAndAnalyze_cases cl f w :
  captureAndAnalyze cv cl f w = w
  \/ captureAndAnalyze cv cl f w = setCaptureCount (fun prev => prev + 1) w
  \/ captureAndAnalyze cv cl f w
     = completeStep cl (setCaptureCount (fun prev => prev + 1) w).
Proof.
  unfold captureAndAnalyze.
  destruct (negb (video f) || _); [auto|].
  destruct (currentStep cl); [|auto].
  destruct (isComplete cv cl f); [auto|].
  destruct (captureCount cl >=? _); auto.
Qed.

End HeuristicMore.


(** [X2] Without OpenCV the completion test of a tick is the stand-in
    [captureCount >= max(2, floor(4 * random))]: whatever
    [Math.random()] returns, it is negative when the callback has seen
    fewer than 2 captures, positive when it has seen at least 3, and
    with exactly 2 it is positive exactly when the random number is
    below 3/4. *)
Theorem count_stand_in_bounds
    {Canvas : Type} (cv : OpenCV Canvas) (cl : HeuristicPlayer.Hooks)
    (f : HeuristicPlayer.Frame Canvas) :
  HeuristicPlayer.opencvReady cl = false ->
  Js.is_random (HeuristicPlayer.random f) ->
  (HeuristicPlayer.captureCount cl < 2 -> HeuristicPlayer.isComplete cv cl f = false)
  /\ (3 <= HeuristicPlayer.captureCount cl -> HeuristicPlayer.isComplete cv cl f = true)
  /\ (HeuristicPlayer.captureCount cl = 2 ->
      (HeuristicPlayer.isComplete cv cl f = true
       <-> (HeuristicPlayer.random f < 3 # 4)%Q)).
Proof.
  intros O R. unfold HeuristicPlayer.isComplete. rewrite O.
  pose proof (floor_of_scaled_random _ 4 R ltac:(lia)) as F.
  change (inject_Z 4) with 4%Q in F.
  set (k := Js.Math_floor (HeuristicPlayer.random f * 4)) in *.
  rewrite Z.geb_leb.
  split; [|split].
  - intros C. apply Z.leb_gt. lia.
  - intros C. apply Z.leb_le. lia.
  - intros ->. rewrite Z.leb_le.
    assert (K : k <= 2 <-> (HeuristicPlayer.random f < 3 # 4)%Q).
    { subst k. unfold Js.Math_floor.
      pose proof (Qfloor_le (HeuristicPlayer.random f * 4)) as L.
      pose proof (Qlt_floor (HeuristicPlayer.random f * 4)) as U.
      set (x := HeuristicPlayer.random f) in *.
      set (n := Qfloor (x * 4)) in *.
      split.
      - intros H.
        assert (U' : (x * 4 < 3)%Q).
        { eapply Qlt_le_trans; [exact U|].
          change 3%Q with (inject_Z 3). rewrite <- Zle_Qle. lia. }
        unfold Qlt in *. cbn in *. lia.
      - intros H.
        assert (N : (inject_Z n < 3)%Q).
        { eapply Qle_lt_trans; [exact L|]. unfold Qlt in *. cbn in *. lia. }
        change 3%Q with (inject_Z 3) in N. rewrite <- Zlt_Qlt in N. lia. }
    rewrite <- K. lia.
Qed.

Lemma count_stand_in_bounds_witness :
  HeuristicPlayer.isComplete pixelCv (HeuristicPlayer.mkHooks 0 false 2 true false)
    {| HeuristicPlayer.video := true; HeuristicPlayer.canvas := Some [];
       HeuristicPlayer.random := 1 # 2 |} = true.
Proof.
  assert (R : Js.is_random (1 # 2))
    by (split; [unfold Qle | unfold Qlt]; simpl; lia).
  destruct (count_stand_in_bounds pixelCv (HeuristicPlayer.mkHooks 0 false 2 true false)
              {| HeuristicPlayer.video := true; HeuristicPlayer.canvas := Some [];
                 HeuristicPlayer.random := 1 # 2 |} eq_refl R) as (_ & _ & H).
  apply (H eq_refl). reflexivity.
Defined.

Section HeuristicSchedule.
Context {Canvas : Type} (cv : OpenCV Canvas).
Import HeuristicPlayer.

Lemma commit_new_deps prev w :
  currentStepIndex prev <> currentStepIndex (hooks w)
  \/ isCameraActive prev <> isCameraActive (hooks w) ->
  commit prev w
  = let w1 := setCaptureCount (fun _ => 0) (setStepCompleted false (clearInterval w)) in
    if isCameraActive (hooks w) then setInterval (hooks w) w1 else w1.
Proof.
  intros N. unfold commit.
  destruct (bool_decide_reflect (currentStepIndex prev = currentStepIndex (hooks w)));
    destruct (bool_decide_reflect (isCameraActive prev = isCameraActive (hooks w)));
    cbn [andb]; try reflexivity. tauto.
Qed.

Lemma orderly_step w e :
  orderly w -> automatic e = true ->
  orderly (step cv w e)
  /\ (currentStepIndex (hooks (step cv w e)) = currentStepIndex (hooks w)
      \/ currentStepIndex (hooks (step cv w e)) = S (currentStepIndex (hooks w))).
Proof.
  intros (A & B & C & D) Au.
  destruct w as [[idx sc c cam o] iv ts].
  unfold orderly, isLastStep in *. cbn in A, B, C, D.
  destruct e; try discriminate Au; clear Au.
  - (* OpencvLoaded *)
    cbn [step]. rewrite commit_same_deps by reflexivity. cbn. tauto.
  - (* CameraStarted *)
    destruct cam.
    + cbn [step]. rewrite commit_same_deps by reflexivity. cbn. tauto.
    + destruct (B eq_refl) as [-> ->]. cbn [step].
      rewrite commit_new_deps by (right; discriminate). cbn.
      repeat split; try assumption; try discriminate; auto.
      all: match goal with H : Some _ = Some _ |- _ => injection H as <- end;
        reflexivity.
  - (* Tick *)
    destruct iv as [cl|]; [|cbn; tauto].
    rewrite (step_Tick cv (mkWorld (mkHooks idx sc c cam o) (Some cl) ts) f cl eq_refl).
    destruct (C cl eq_refl) as [Ci ->].
    assert (Cam : cam = true).
    { destruct cam; [reflexivity|]. destruct (B eq_refl) as [? _]. discriminate. }
    subst cam.
    destruct (captureAndAnalyze_cases cv cl f
                (mkWorld (mkHooks idx sc c true o) (Some cl) []))
      as [-> | [-> | ->]]; cbn.
    + tauto.
    + tauto.
    + unfold isLastStep. rewrite Ci.
      repeat split; try assumption; try discriminate; auto.
  - (* TimeoutFires *)
    unfold step. cbn [hooks timeouts intervalRef].
    destruct D as [-> | [-> ->]]; [rewrite lookup_nil; cbn; intuition (auto; congruence)|].
    destruct n as [|n]; [|rewrite lookup_cons, lookup_nil; cbn; intuition (auto; congruence)].
    rewrite lookup_cons. cbn [delete list_delete fire].
    destruct (Z.eqb_spec (Z.of_nat idx) (Z.of_nat 6 - 1)) as [E|E].
    + rewrite commit_same_deps by reflexivity. cbn. intuition (auto; congruence).
    + assert (A' : (S idx < 6)%nat) by lia.
      rewrite commit_new_deps by (left; cbn; lia). cbn.
      destruct cam; cbn;
        repeat split; try assumption; try discriminate; auto;
        try (match goal with H : Some _ = Some _ |- _ => injection H as <- end;
             reflexivity);
        lia.
Qed.

Lemma orderly_run es : forall w,
  orderly w -> forallb automatic es = true -> orderly (run cv w es).
Proof.
  induction es as [|e es IH]; intros w O F; [exact O|].
  cbn in F. apply andb_prop in F. destruct F as [Fe Fes].
  cbn. apply IH; [|exact Fes]. now apply orderly_step.
Qed.

Lemma orderly_mount : orderly mount.
Proof.
  unfold orderly, mount. cbn.
  repeat split; try discriminate; try lia. left; reflexivity.
Qed.

End HeuristicSchedule.



(** [X4] As long as nobody clicks (OpenCV and the camera coming up,
    interval ticks and timeouts firing, in any order and number), the
    step index stays inside the catalogue, at most one advance is ever
    pending, and each event leaves the index where it is or moves it
    forward by exactly one. *)
Theorem step_index_stays_in_catalogue
    {Canvas : Type} (cv : OpenCV Canvas)
    (es : list (HeuristicPlayer.Event (Canvas := Canvas)))
    (e : HeuristicPlayer.Event (Canvas := Canvas)) :
  forallb HeuristicPlayer.automatic (es ++ [e]) = true ->
  let w := HeuristicPlayer.run cv HeuristicPlayer.mount es in
  let w' := HeuristicPlayer.step cv w e in
  is_Some (HeuristicPlayer.currentStep (HeuristicPlayer.hooks w'))
  /\ (HeuristicPlayer.currentStepIndex (HeuristicPlayer.hooks w') <= 5)%nat
  /\ (length (HeuristicPlayer.timeouts w') <= 1)%nat
  /\ (HeuristicPlayer.currentStepIndex (HeuristicPlayer.hooks w')
      = HeuristicPlayer.currentStepIndex (HeuristicPlayer.hooks w)
      \/ HeuristicPlayer.currentStepIndex (HeuristicPlayer.hooks w')
         = S (HeuristicPlayer.currentStepIndex (HeuristicPlayer.hooks w))).
Proof.
  intros F. cbv zeta. rewrite forallb_app in F. apply andb_prop in F.
  destruct F as [Fes Fe]. cbn in Fe. rewrite andb_true_r in Fe.
  pose proof (orderly_run cv es _ (orderly_mount) Fes) as O.
  destruct (orderly_step cv _ e O Fe) as [(A & _ & _ & D) M].
  change (length HeuristicPlayer.steps) with 6%nat in A.
  split; [|split; [|split]].
  - unfold HeuristicPlayer.currentStep. apply lookup_lt_is_Some_2. exact A.
  - lia.
  - destruct D as [-> | [_ ->]]; cbn; lia.
  - exact M.
Qed.

Lemma step_index_stays_in_catalogue_witness :
  let w := HeuristicPlayer.run pixelCv HeuristicPlayer.mount
             [HeuristicPlayer.OpencvLoaded; HeuristicPlayer.CameraStarted;
              HeuristicPlayer.Tick busyFrame; HeuristicPlayer.TimeoutFires 0] in
  (HeuristicPlayer.currentStepIndex (HeuristicPlayer.hooks w) <= 5)%nat
  /\ HeuristicPlayer.currentStepIndex (HeuristicPlayer.hooks w) = 1%nat.
Proof.
  cbv zeta. split; [|reflexivity].
  exact (proj1 (proj2
    (step_index_stays_in_catalogue pixelCv
       [HeuristicPlayer.OpencvLoaded; HeuristicPlayer.CameraStarted;
        HeuristicPlayer.Tick busyFrame]
       (HeuristicPlayer.TimeoutFires 0) eq_refl))).
Defined.





(** ** The object-detector player *)



Lemma positiveEvidence_default
    (isHandNearMouth : list ModelPlayer.Hand -> bool) (w : ModelPlayer.World)
    (s : ModelPlayer.TaskStep) (detections : list ModelPlayer.CocoDetection)
    (landmarks : list ModelPlayer.Hand) :
  ModelPlayer.id s <> "step-5" -> ModelPlayer.id s <> "step-6" ->
  ModelPlayer.positiveEvidence isHandNearMouth w s detections landmarks
  = negb (bool_decide (detections = []) && bool_decide (landmarks = [])).
Proof.
  intros N5 N6. unfold ModelPlayer.positiveEvidence.
  destruct (String.eqb_spec (ModelPlayer.getActionTypeForStep (ModelPlayer.id s))
              "brush_teeth") as [B|B].
  - apply brush_teeth_steps in B. tauto.
  - destruct detections, landmarks; reflexivity.
Qed.




(** [X9] The simulated hand pose drives the default rule: on a step
    that is not of type [brush_teeth], a cycle whose model reports no
    object raises the progress by 10 (up to 100) exactly when
    [Math.random()] exceeds 0.7, and lowers it by 2 (down to 0)
    otherwise; the simulated pose is then one hand of 21 points. *)
Theorem empty_detection_follows_the_coin
    (task : option ModelPlayer.Task) (isHandNearMouth : list ModelPlayer.Hand -> bool)
    (cl : ModelPlayer.Hooks) (s : ModelPlayer.TaskStep)
    (r : Q) (pts : nat -> ModelPlayer.Landmark) (w : ModelPlayer.World) :
  ModelPlayer.currentStep task cl = Some s ->
  ModelPlayer.id s <> "step-5" -> ModelPlayer.id s <> "step-6" ->
  let prev := ModelPlayer.detectionProgress (ModelPlayer.hooks w) in
  let next := ModelPlayer.detectionProgress
                (ModelPlayer.hooks
                   (ModelPlayer.checkStepCompletion task isHandNearMouth cl []
                      (ModelPlayer.simulateHandPose r pts) w)) in
  ((7 # 10 < r)%Q -> next = Z.min (prev + 10) 100
                     /\ map (@length _) (ModelPlayer.simulateHandPose r pts) = [21%nat])
  /\ ((r <= 7 # 10)%Q -> next = Z.max (prev - 2) 0
                         /\ ModelPlayer.simulateHandPose r pts = []).
Proof.
  intros S N5 N6. cbv zeta.
  rewrite (checkStepCompletion_progress task isHandNearMouth _ _ _ _ s S). cbv zeta.
  rewrite (positiveEvidence_default isHandNearMouth w s []
             (ModelPlayer.simulateHandPose r pts) N5 N6).
  destruct (String.eqb_spec (ModelPlayer.getActionTypeForStep (ModelPlayer.id s))
              "brush_teeth") as [B|_]; [apply brush_teeth_steps in B; tauto|].
  unfold ModelPlayer.simulateHandPose.
  destruct (Js.gt r (7 # 10)) eqn:G.
  - split; [intros _; split; reflexivity|].
    intros L. apply Js_gt_true in G. apply Qlt_not_le in G. contradiction.
  - split; [|intros _; split; reflexivity].
    intros L. apply Js_gt_true in L. congruence.
Qed.

Lemma empty_detection_follows_the_coin_witness :
  ModelPlayer.detectionProgress
    (ModelPlayer.hooks
       (ModelPlayer.checkStepCompletion (Some brushingTask) anyHand
          (ModelPlayer.hooks playerStart) []
          (ModelPlayer.simulateHandPose (9 # 10) originPoint) playerStart)) = 10.
Proof.
  destruct (empty_detection_follows_the_coin (Some brushingTask) anyHand
              (ModelPlayer.hooks playerStart)
              {| ModelPlayer.id := "step-1";
                 ModelPlayer.instruction := "Instruction 1";
                 ModelPlayer.audioPrompt := "Prompt 1";
                 ModelPlayer.successCriteria := "Criteria 1";
                 ModelPlayer.defaultRepetition := None |}
              (9 # 10) originPoint playerStart eq_refl)
    as [H _].
  - discriminate.
  - discriminate.
  - exact (proj1 (H eq_refl)).
Defined.

(** [X10] A cycle without positive evidence only lets the progress
    decay: the world after [checkStepCompletion] is the old one with
    the progress lowered by 5 on a [brush_teeth] step and by 2 on any
    other, not below 0.  Nothing else moves: the step is not completed,
    no timer is set or cleared and the narration is left alone. *)
Theorem negative_tick_only_decays
    (task : option ModelPlayer.Task) (isHandNearMouth : list ModelPlayer.Hand -> bool)
    (cl : ModelPlayer.Hooks) (s : ModelPlayer.TaskStep)
    (detections : list ModelPlayer.CocoDetection)
    (landmarks : list ModelPlayer.Hand) (w : ModelPlayer.World) :
  ModelPlayer.currentStep task cl = Some s ->
  ModelPlayer.positiveEvidence isHandNearMouth w s detections landmarks = false ->
  let k := if String.eqb (ModelPlayer.getActionTypeForStep (ModelPlayer.id s))
                "brush_teeth" then 5 else 2 in
  ModelPlayer.checkStepCompletion task isHandNearMouth cl detections landmarks w
  = ModelPlayer.setDetectionProgress (fun prev => Z.max (prev - k) 0) w.
Proof.
  intros S P. cbv zeta.
  unfold ModelPlayer.checkStepCompletion, ModelPlayer.positiveEvidence in *.
  rewrite S. cbn zeta.
  destruct (String.eqb (ModelPlayer.getActionTypeForStep (ModelPlayer.id s))
              "brush_teeth"); rewrite P; reflexivity.
Qed.

Lemma negative_tick_only_decays_witness :
  let w := ModelPlayer.setDetectionProgress (fun _ => 3) playerStart in
  ModelPlayer.checkStepCompletion (Some brushingTask) anyHand
    (ModelPlayer.hooks playerStart) [] [] w
  = ModelPlayer.setDetectionProgress (fun _ => 1) playerStart.
Proof.
  cbv zeta.
  refine (eq_trans
    (negative_tick_only_decays (Some brushingTask) anyHand
       (ModelPlayer.hooks playerStart)
       {| ModelPlayer.id := "step-1";
          ModelPlayer.instruction := "Instruction 1";
          ModelPlayer.audioPrompt := "Prompt 1";
          ModelPlayer.successCriteria := "Criteria 1";
          ModelPlayer.defaultRepetition := None |}
       [] [] (ModelPlayer.setDetectionProgress (fun _ => 3) playerStart)
       eq_refl eq_refl) _).
  reflexivity.
Defined.

Lemma Js_gt_false (a b : Q) : Js.gt a b = false <-> (a <= b)%Q.
Proof.
  unfold Js.gt. rewrite negb_false_iff. apply Qle_bool_iff.
Qed.

(** [X11] On a [brush_teeth] step the evidence hangs on the first
    detection of class "toothbrush": without any such detection the
    cycle is negative even when a hand is near the mouth, and when the
    first toothbrush has a score of 0.6 or less the cycle is negative
    whatever follows it in the list (the threshold is strict, and a
    later, better scored toothbrush is not looked at). *)
Theorem first_toothbrush_decides
    (isHandNearMouth : list ModelPlayer.Hand -> bool) (w : ModelPlayer.World)
    (s : ModelPlayer.TaskStep) (landmarks : list ModelPlayer.Hand) :
  ModelPlayer.id s = "step-5" \/ ModelPlayer.id s = "step-6" ->
  (forall detections,
      Forall (fun d => ModelPlayer.class d <> "toothbrush") detections ->
      ModelPlayer.positiveEvidence isHandNearMouth w s detections landmarks = false)
  /\ (forall others d rest,
        Forall (fun d => ModelPlayer.class d <> "toothbrush") others ->
        ModelPlayer.class d = "toothbrush" ->
        (ModelPlayer.score d <= 6 # 10)%Q ->
        ModelPlayer.positiveEvidence isHandNearMouth w s (others ++ d :: rest)
          landmarks = false).
Proof.
  intros B. apply brush_teeth_steps in B.
  assert (F : forall others tail,
             Forall (fun d => ModelPlayer.class d <> "toothbrush") others ->
             ModelPlayer.toothbrushDetection (others ++ tail)
             = ModelPlayer.toothbrushDetection tail).
  { intros others tail H. unfold ModelPlayer.toothbrushDetection.
    induction H as [|x l N _ IH]; [reflexivity|]. cbn.
    apply String.eqb_neq in N. now rewrite N. }
  unfold ModelPlayer.positiveEvidence. rewrite B, String.eqb_refl.
  split.
  - intros detections H.
    assert (T : ModelPlayer.toothbrushDetected detections = false).
    { unfold ModelPlayer.toothbrushDetected.
      rewrite <- (app_nil_r detections), (F detections [] H). reflexivity. }
    now rewrite T.
  - intros others d rest H C Sc.
    assert (T : ModelPlayer.toothbrushDetected (others ++ d :: rest) = false).
    { unfold ModelPlayer.toothbrushDetected. rewrite (F others _ H).
      unfold ModelPlayer.toothbrushDetection. cbn. rewrite C. cbn.
      now apply Js_gt_false. }
    now rewrite T.
Qed.

Lemma first_toothbrush_decides_witness :
  let weak := {| ModelPlayer.bbox := (200, 100, 80, 160)%Q;
                 ModelPlayer.class := "toothbrush";
                 ModelPlayer.score := 6 # 10 |} in
  let s5 := {| ModelPlayer.id := "step-5";
               ModelPlayer.instruction := "Instruction 5";
               ModelPlayer.audioPrompt := "Prompt 5";
               ModelPlayer.successCriteria := "Criteria 5";
               ModelPlayer.defaultRepetition := None |} in
  ModelPlayer.positiveEvidence anyHand playerStart s5 [weak; toothbrush062]
    [[originPoint 0%nat]] = false.
Proof.
  cbv zeta.
  refine (proj2 (first_toothbrush_decides anyHand playerStart
                   {| ModelPlayer.id := "step-5";
                      ModelPlayer.instruction := "Instruction 5";
                      ModelPlayer.audioPrompt := "Prompt 5";
                      ModelPlayer.successCriteria := "Criteria 5";
                      ModelPlayer.defaultRepetition := None |}
                   [[originPoint 0%nat]]
                   (or_introl eq_refl)) []
            {| ModelPlayer.bbox := (200, 100, 80, 160)%Q;
               ModelPlayer.class := "toothbrush";
               ModelPlayer.score := 6 # 10 |}
            [toothbrush062] _ eq_refl _).
  - constructor.
  - unfold Qle. simpl. lia.
Defined.

Section CompletionFacts.
Import ModelPlayer.

Lemma sched_cancelSpeech w : sched (cancelSpeech w) = sched w.
Proof.
  unfold cancelSpeech.
  destruct (speaking (speech w)); cbn;
    destruct (speechUtteranceRef (speech _)); reflexivity.
Qed.

Lemma sched_completeDetection cl w :
  sched (completeDetection cl w)
  = let ts := match autoDetectTimeout cl with
              | Some t => delete t (timers (sched w))
              | None => timers (sched w)
              end in
    mkSched None
      (<[nextTimer (sched w) := {| delay := 2000; action := MoveToNextStep cl |}]> ts)
      (S (nextTimer (sched w)))
      (Some (nextTimer (sched w))).
Proof.
  unfold completeDetection.
  destruct (autoDetectTimeout cl); cbn -[cancelSpeech];
    rewrite sched_cancelSpeech; reflexivity.
Qed.

Lemma speech_completeDetection cl w :
  speech (completeDetection cl w) = speech (cancelSpeech w).
Proof.
  unfold completeDetection.
  destruct (autoDetectTimeout cl); cbn -[cancelSpeech];
    rewrite !speech_cancelSpeech; reflexivity.
Qed.

Lemma hooks_speak cl t throws w :
  hooks (speak cl t throws w) = hooks w
  \/ hooks (speak cl t throws w) = hooks (setIsPlaying false w).
Proof.
  unfold speak. destruct (negb (userInteracted cl)); [left; reflexivity|].
  right.
  destruct (ttsAvailable cl && speechSynthesisRef (speech (cancelSpeech w)));
    [destruct throws|]; cbn -[cancelSpeech]; apply hooks_cancelSpeech.
Qed.

Lemma hooks_startDetection cl rnd w :
  hooks (startDetection cl rnd w) = hooks w
  \/ hooks (startDetection cl rnd w)
     = hooks (setAutoDetectTimeout (Some (nextTimer (sched w))) w).
Proof.
  unfold startDetection.
  destruct (negb (bool_decide (is_Some (videoRef (media w)))) || _);
    [left | right]; reflexivity.
Qed.

End CompletionFacts.

(** [X12] [completeDetection] marks the step completed, stops the
    detection interval, silences the narration ([isPlaying] false, no
    tracked utterance) and schedules exactly one [moveToNextStep]
    2000 ms later under a fresh handle kept in [timeoutRef].  Of the
    other pending timeouts it removes only the fallback timeout its own
    render knows of: a callback whose render still has
    [autoDetectTimeout = null] leaves every pending timeout in place. *)
Theorem completeDetection_effects (cl : ModelPlayer.Hooks) (w : ModelPlayer.World) :
  let w' := ModelPlayer.completeDetection cl w in
  let t := ModelPlayer.nextTimer (ModelPlayer.sched w) in
  ModelPlayer.isStepComplete (ModelPlayer.hooks w') = true
  /\ ModelPlayer.isPlaying (ModelPlayer.hooks w') = false
  /\ ModelPlayer.detectionProgress (ModelPlayer.hooks w')
     = ModelPlayer.detectionProgress (ModelPlayer.hooks w)
  /\ ModelPlayer.detectionIntervalRef (ModelPlayer.sched w') = None
  /\ ModelPlayer.speechUtteranceRef (ModelPlayer.speech w') = None
  /\ ModelPlayer.timeoutRef (ModelPlayer.sched w') = Some t
  /\ ModelPlayer.timers (ModelPlayer.sched w') !! t
     = Some {| ModelPlayer.delay := 2000;
               ModelPlayer.action := ModelPlayer.MoveToNextStep cl |}
  /\ (forall t0, t0 <> t ->
        ModelPlayer.timers (ModelPlayer.sched w') !! t0
        = if bool_decide (ModelPlayer.autoDetectTimeout cl = Some t0) then None
          else ModelPlayer.timers (ModelPlayer.sched w) !! t0).
Proof.
  cbv zeta.
  rewrite isStepComplete_completeDetection, detectionProgress_completeDetection.
  rewrite sched_completeDetection, speech_completeDetection, speech_cancelSpeech.
  rewrite hooks_completeDetection. cbv zeta.
  cbn [ModelPlayer.detectionIntervalRef ModelPlayer.timeoutRef ModelPlayer.timers
       ModelPlayer.speechUtteranceRef].
  destruct (ModelPlayer.autoDetectTimeout cl) as [a|];
    repeat split; try reflexivity; try apply lookup_insert_eq;
    intros t0 N; rewrite lookup_insert_ne by congruence.
  - case_bool_decide as E.
    + injection E as ->. apply lookup_delete_eq.
    + apply lookup_delete_ne. congruence.
  - rewrite bool_decide_eq_false_2 by discriminate. reflexivity.
Qed.

(** [X13] [moveToNextStep] takes the index from the render it closes
    over, not from the current state.  Without a task it does nothing.
    On the last step of that render it only clears the repeat count
    and the progress.  Otherwise it sets the index to that render's
    index plus one, reopens the step with progress 0, and sets the
    countdown to the [interval] parameter in fixed mode and to the next
    step's [defaultRepetition] (15 when absent or 0) otherwise. *)
Theorem moveToNextStep_effects
    (task : option ModelPlayer.Task) (fixedMode : bool) (customInterval : Z)
    (cl : ModelPlayer.Hooks) (rnd : Q) (throws : bool) (w : ModelPlayer.World) :
  let w' := ModelPlayer.moveToNextStep task fixedMode customInterval cl rnd throws w in
  (task = None -> w' = w)
  /\ (forall t, task = Some t -> ModelPlayer.isLastStep task cl = true ->
        w' = ModelPlayer.setDetectionProgress (fun _ => 0)
               (ModelPlayer.setInstructionRepeatCount (fun _ => 0) w))
  /\ (forall t, task = Some t -> ModelPlayer.isLastStep task cl = false ->
        ModelPlayer.currentStepIndex (ModelPlayer.hooks w')
        = S (ModelPlayer.currentStepIndex cl)
        /\ ModelPlayer.isStepComplete (ModelPlayer.hooks w') = false
        /\ ModelPlayer.detectionProgress (ModelPlayer.hooks w') = 0
        /\ ModelPlayer.timeLeft (ModelPlayer.hooks w')
           = if fixedMode then customInterval
             else match ModelPlayer.steps t !! S (ModelPlayer.currentStepIndex cl) with
                  | Some {| ModelPlayer.defaultRepetition := Some n |} =>
                      if n =? 0 then 15 else n
                  | _ => 15
                  end).
Proof.
  cbv zeta. unfold ModelPlayer.moveToNextStep.
  split; [intros ->; reflexivity|]. split.
  - intros t -> L. rewrite L. reflexivity.
  - intros t -> L. rewrite L.
    set (w1 := ModelPlayer.setTimeLeft _ _).
    assert (K : forall w0,
               let w2 := ModelPlayer.speakInstruction (Some t) cl throws
                           (ModelPlayer.startDetection cl rnd w0) in
               ModelPlayer.currentStepIndex (ModelPlayer.hooks w2)
               = ModelPlayer.currentStepIndex (ModelPlayer.hooks w0)
               /\ ModelPlayer.isStepComplete (ModelPlayer.hooks w2)
                  = ModelPlayer.isStepComplete (ModelPlayer.hooks w0)
               /\ ModelPlayer.detectionProgress (ModelPlayer.hooks w2)
                  = ModelPlayer.detectionProgress (ModelPlayer.hooks w0)
               /\ ModelPlayer.timeLeft (ModelPlayer.hooks w2)
                  = ModelPlayer.timeLeft (ModelPlayer.hooks w0)).
    { intros w0. cbv zeta. unfold ModelPlayer.speakInstruction.
      destruct (ModelPlayer.currentStep (Some t) cl) as [st|].
      - destruct (hooks_speak cl (ModelPlayer.audioPrompt st) throws
                    (ModelPlayer.setInstructionRepeatCount (fun prev => prev + 1)
                       (ModelPlayer.startDetection cl rnd w0))) as [-> | ->];
          cbn; destruct (hooks_startDetection cl rnd w0) as [-> | ->];
          repeat split; reflexivity.
      - destruct (hooks_startDetection cl rnd w0) as [-> | ->];
          repeat split; reflexivity. }
    destruct (K w1) as (A & B & C & D). rewrite A, B, C, D. subst w1. cbn.
    repeat split; [lia|].
    destruct fixedMode; [reflexivity|].
    replace (ModelPlayer.currentStepIndex cl + 1)%nat
      with (S (ModelPlayer.currentStepIndex cl)) by lia.
    destruct (ModelPlayer.steps t !! S (ModelPlayer.currentStepIndex cl))
      as [[? ? ? ? [[|n|n]|]]|]; reflexivity.
Qed.

Lemma moveToNextStep_effects_witness :
  let cl := ModelPlayer.hooks playerStart in
  ModelPlayer.currentStepIndex
    (ModelPlayer.hooks
       (ModelPlayer.moveToNextStep (Some brushingTask) false 15 cl (1 # 2) false
          (ModelPlayer.setCurrentStepIndex 4 playerStart))) = 1%nat.
Proof.
  cbv zeta.
  destruct (moveToNextStep_effects (Some brushingTask) false 15
              (ModelPlayer.hooks playerStart) (1 # 2) false
              (ModelPlayer.setCurrentStepIndex 4 playerStart)) as (_ & _ & H).
  exact (proj1 (H brushingTask eq_refl eq_refl)).
Defined.

(** ** The object-detector player under its own schedule *)

Lemma initCamera_attempt cl cam rnd attempt w :
  ModelPlayer.initCamera cl cam rnd attempt w
  = match ModelPlayer.tryCamera cl (cam attempt) rnd attempt w with
    | (w', None) => w'
    | (w', Some err) =>
        if (attempt <? 3)%nat
        then ModelPlayer.initCamera cl cam rnd (S attempt)
               (ModelPlayer.logCamera
                  (ModelPlayer.BackOff (1000 * Z.of_nat attempt)) w')
        else ModelPlayer.giveUp err w'
    end.
Proof. apply initCamera_unfold. Qed.

Section ScheduleFacts.
Import ModelPlayer.
Variable task : option Task.
Variable fixedMode : bool.
Variable customInterval : Z.
Variable isHandNearMouth : list Hand -> bool.

(** What holds before [initCamera] and is kept by each of its parts is
    kept by [initCamera]. *)
Lemma initCamera_preserves (P : World -> Prop) cl cam rnd :
  (forall acq n w, P w -> P (tryCamera cl acq rnd n w).1) ->
  (forall e w, P w -> P (logCamera e w)) ->
  (forall err w, P w -> P (giveUp err w)) ->
  forall attempt w, P w -> P (initCamera cl cam rnd attempt w).
Proof.
  intros T L G attempt.
  remember (3 - attempt)%nat as k eqn:K. revert attempt K.
  induction k as [|k IH]; intros attempt K w Pw;
    rewrite initCamera_attempt;
    pose proof (T (cam attempt) attempt w Pw) as Pt;
    destruct (tryCamera cl (cam attempt) rnd attempt w) as [w' [err|]];
    cbn [fst] in Pt; try exact Pt;
    destruct (Nat.ltb_spec attempt 3); try lia; auto.
  apply IH; [lia|]. auto.
Qed.

Lemma sched_speak cl t throws w : sched (speak cl t throws w) = sched w.
Proof.
  unfold speak. destruct (negb (userInteracted cl)); [reflexivity|].
  destruct (ttsAvailable cl && speechSynthesisRef (speech (cancelSpeech w)));
    [destruct throws|]; cbn -[cancelSpeech]; apply sched_cancelSpeech.
Qed.

Lemma sched_speakInstruction tk cl throws w :
  sched (speakInstruction tk cl throws w) = sched w.
Proof.
  unfold speakInstruction. destruct (currentStep tk cl); [|reflexivity].
  now rewrite sched_speak.
Qed.

Lemma index_speakInstruction tk cl throws w :
  currentStepIndex (hooks (speakInstruction tk cl throws w))
  = currentStepIndex (hooks w).
Proof.
  unfold speakInstruction. destruct (currentStep tk cl) as [st|]; [|reflexivity].
  destruct (hooks_speak cl (audioPrompt st) throws
              (setInstructionRepeatCount (fun prev => prev + 1) w)) as [-> | ->];
    reflexivity.
Qed.

Lemma closuresAre_startDetection h rnd w :
  closuresAre h (sched w) -> closuresAre h (sched (startDetection h rnd w)).
Proof.
  intros [F I]. unfold startDetection.
  destruct (negb (bool_decide (is_Some (videoRef (media w)))) || _);
    [split; assumption|].
  split; cbn.
  - apply map_Forall_insert_2; [reflexivity | exact F].
  - intros cl [= <-]. reflexivity.
Qed.

Lemma closuresAre_completeDetection h w :
  closuresAre h (sched w) -> closuresAre h (sched (completeDetection h w)).
Proof.
  intros [F I]. rewrite sched_completeDetection. cbv zeta. split; cbn.
  - apply map_Forall_insert_2; [reflexivity|].
    destruct (autoDetectTimeout h); [apply map_Forall_delete|]; exact F.
  - discriminate.
Qed.

Lemma closuresAre_clearTimeout h t w :
  closuresAre h (sched w) -> closuresAre h (sched (clearTimeout t w)).
Proof.
  intros [F I]. split; cbn; [apply map_Forall_delete|]; assumption.
Qed.

(** A callback whose render has a progress below 80 can only change
    the progress. *)
Lemma checkStepCompletion_below_threshold cl detections landmarks w :
  detectionProgress cl < 80 ->
  exists f,
    checkStepCompletion task isHandNearMouth cl detections landmarks w
    = setDetectionProgress f w.
Proof.
  intros B. unfold checkStepCompletion.
  assert (T : (detectionProgress cl >=? 80) = false).
  { rewrite Z.geb_leb. apply Z.leb_gt. exact B. }
  rewrite T.
  destruct (currentStep task cl).
  - cbn zeta.
    repeat match goal with
      | |- context [if ?c then _ else _] => destruct c
      end; eexists; reflexivity.
  - exists (fun p => p). destruct w as [[] ? ? ?]. reflexivity.
Qed.

Lemma detectionTick_below_threshold cl detect r pts w :
  detectionProgress cl < 80 ->
  exists f, detectionTick task isHandNearMouth cl detect r pts w
            = setDetectionProgress f w.
Proof.
  intros B. unfold detectionTick.
  destruct (negb (bool_decide (is_Some (videoRef (media w)))) || _ || _);
    [|destruct detect];
    try (exists (fun p => p); destruct w as [[] ? ? ?]; reflexivity).
  now apply checkStepCompletion_below_threshold.
Qed.

#[local] Abbreviation firstRender := (firstRender customInterval).
#[local] Abbreviation onFirstRender := (onFirstRender customInterval).

Lemma hooks_mount synth video model :
  hooks (mount customInterval synth video model) = firstRender.
Proof. reflexivity. Qed.

Lemma onFirstRender_initCamera cam rnd attempt w :
  onFirstRender w -> onFirstRender (initCamera firstRender cam rnd attempt w).
Proof.
  apply initCamera_preserves.
  - intros acq n w0 [C I]. unfold tryCamera. cbn zeta.
    destruct (videoRef _); [|split; assumption].
    destruct acq; try (split; assumption). cbn [fst].
    split.
    + apply closuresAre_startDetection. exact C.
    + destruct (hooks_startDetection firstRender rnd
                  (setDetectionStatus "Camera ready"
                     (setCameraError None
                        (setCameraActive true
                           (holdStream
                              (releaseStream
                                 (setDetectionStatus "Initializing camera..."
                                    (logCamera (Attempt n) w0))))))))
        as [-> | ->]; exact I.
  - intros e w0 H. exact H.
  - intros err w0 H. exact H.
Qed.

Lemma onFirstRender_dispatch w e :
  onFirstRender w ->
  onFirstRender (dispatch task fixedMode customInterval isHandNearMouth w e).
Proof.
  intros [C I]. destruct e; cbn [dispatch].
  - (* TimerFires *)
    destruct (timers (sched w) !! t) as [tm|] eqn:L; [|split; assumption].
    pose proof (proj1 C t tm L) as Cl. unfold timerClosure in Cl.
    pose proof (closuresAre_clearTimeout firstRender t w C) as C1.
    destruct (action tm) as [cl|cl]; subst cl.
    + unfold autoDetect. split.
      * apply closuresAre_completeDetection. exact C1.
      * rewrite hooks_completeDetection.
        destruct (autoDetectTimeout firstRender); exact I.
    + unfold moveToNextStep. destruct task as [tk|] eqn:Tk; [|split; assumption].
      destruct (isLastStep (Some tk) firstRender); [split; assumption|].
      split.
      * rewrite sched_speakInstruction. apply closuresAre_startDetection. exact C1.
      * rewrite index_speakInstruction.
        match goal with
        | |- context [startDetection ?h ?r ?x] =>
            destruct (hooks_startDetection h r x) as [-> | ->]
        end; cbn; lia.
  - (* IntervalFires *)
    destruct (detectionIntervalRef (sched w)) as [cl|] eqn:L; [|split; assumption].
    pose proof (proj2 C cl L) as ->.
    destruct (detectionTick_below_threshold firstRender detect r pts w) as [f ->];
      [cbn; lia|]. split; assumption.
  - (* Click *)
    split.
    + rewrite sched_speakInstruction. exact C.
    + rewrite index_speakInstruction. exact I.
  - split; assumption.
  - split; assumption.
  - unfold utteranceStart. destruct (queue (speech w)); split; assumption.
  - unfold utteranceEnd. destruct (queue (speech w)); [split; assumption|].
    cbn zeta. destruct (utterances (speech (dequeue w)) !! n) as [[? []]|];
      split; assumption.
  - unfold utteranceError. destruct (queue (speech w)); [split; assumption|].
    cbn zeta. destruct (utterances (speech _) !! n); split; assumption.
Qed.

Lemma onFirstRender_play synth video model cam rnd es :
  onFirstRender
    (play task fixedMode customInterval isHandNearMouth synth video model cam rnd es).
Proof.
  unfold play. cbv zeta. rewrite hooks_mount.
  assert (S0 : onFirstRender (initCamera firstRender cam rnd 1
                                (mount customInterval synth video model))).
  { apply onFirstRender_initCamera. split; [split|].
    - apply map_Forall_empty.
    - discriminate.
    - cbn. lia. }
  revert S0. generalize (initCamera firstRender cam rnd 1
                           (mount customInterval synth video model)).
  induction es as [|e es IH]; intros w O; [exact O|].
  cbn. apply IH. now apply onFirstRender_dispatch.
Qed.

End ScheduleFacts.

(** [X14] Under the page's own schedule every timeout and the detection
    interval run callbacks of the first render: [moveToNextStep] always
    computes the next index from that render's index 0.  So however
    many timeouts fire and whatever the detector sees, the step index
    never gets past 1, the second step. *)
Theorem schedule_never_passes_second_step
    (task : option ModelPlayer.Task) (fixedMode : bool) (customInterval : Z)
    (isHandNearMouth : list ModelPlayer.Hand -> bool)
    (synth : bool) (video : option Z) (model : bool)
    (cam : nat -> ModelPlayer.Acquisition) (rnd : Q)
    (es : list ModelPlayer.Fired) :
  let first := ModelPlayer.hooks (ModelPlayer.mount customInterval synth video model) in
  let w := ModelPlayer.play task fixedMode customInterval isHandNearMouth
             synth video model cam rnd es in
  (ModelPlayer.currentStepIndex (ModelPlayer.hooks w) <= 1)%nat
  /\ (forall t tm, ModelPlayer.timers (ModelPlayer.sched w) !! t = Some tm ->
        ModelPlayer.timerClosure tm = first)
  /\ (forall cl, ModelPlayer.detectionIntervalRef (ModelPlayer.sched w) = Some cl ->
        cl = first).
Proof.
  cbv zeta.
  destruct (onFirstRender_play task fixedMode customInterval isHandNearMouth
              synth video model cam rnd es) as [[F I] B].
  split; [exact B|]. split; [exact F | exact I].
Qed.

(** [X15] For the same reason the progress threshold is out of reach
    under that schedule: the interval's callback compares the first
    render's progress, 0, with 80, so an interval tick changes nothing
    but the progress score.  It never completes the step, whatever the
    score has grown to; only the fallback timeout does. *)
Theorem scheduled_tick_never_completes
    (task : option ModelPlayer.Task) (fixedMode : bool) (customInterval : Z)
    (isHandNearMouth : list ModelPlayer.Hand -> bool)
    (synth : bool) (video : option Z) (model : bool)
    (cam : nat -> ModelPlayer.Acquisition) (rnd : Q)
    (es : list ModelPlayer.Fired)
    (detect : option (list ModelPlayer.CocoDetection)) (r : Q)
    (pts : nat -> ModelPlayer.Landmark) :
  let w := ModelPlayer.play task fixedMode customInterval isHandNearMouth
             synth video model cam rnd es in
  let w' := ModelPlayer.dispatch task fixedMode customInterval isHandNearMouth w
              (ModelPlayer.IntervalFires detect r pts) in
  (exists f, w' = ModelPlayer.setDetectionProgress f w)
  /\ ModelPlayer.isStepComplete (ModelPlayer.hooks w')
     = ModelPlayer.isStepComplete (ModelPlayer.hooks w)
  /\ ModelPlayer.sched w' = ModelPlayer.sched w.
Proof.
  cbv zeta.
  destruct (onFirstRender_play task fixedMode customInterval isHandNearMouth
              synth video model cam rnd es) as [[F I] B].
  set (w := ModelPlayer.play _ _ _ _ _ _ _ _ _ _) in *.
  assert (E : exists f,
             ModelPlayer.dispatch task fixedMode customInterval isHandNearMouth w
               (ModelPlayer.IntervalFires detect r pts)
             = ModelPlayer.setDetectionProgress f w).
  { cbn [ModelPlayer.dispatch].
    destruct (ModelPlayer.detectionIntervalRef (ModelPlayer.sched w)) as [cl|].
    - rewrite (I cl eq_refl).
      apply detectionTick_below_threshold. cbn. lia.
    - exists (fun p => p). destruct w as [[] ? ? ?]. reflexivity. }
  destruct E as [f E]. rewrite E. split; [exists f; reflexivity|].
  split; reflexivity.
Qed.

(** ** Narration, continued *)

(** [X16] [cancelSpeech] can be called any number of times: a second
    call changes nothing, and after the first the page is never
    playing and tracks no utterance. *)
Theorem cancelSpeech_idempotent (w : ModelPlayer.World) :
  ModelPlayer.cancelSpeech (ModelPlayer.cancelSpeech w) = ModelPlayer.cancelSpeech w
  /\ ModelPlayer.isPlaying (ModelPlayer.hooks (ModelPlayer.cancelSpeech w)) = false
  /\ ModelPlayer.speechUtteranceRef (ModelPlayer.speech (ModelPlayer.cancelSpeech w))
     = None
  /\ ModelPlayer.speaking (ModelPlayer.speech (ModelPlayer.cancelSpeech w)) = false.
Proof.
  destruct w as [[] [sr r us q a] m sc].
  unfold ModelPlayer.cancelSpeech, ModelPlayer.speaking.
  cbn [ModelPlayer.speech ModelPlayer.speechSynthesisRef ModelPlayer.queue].
  destruct sr; cbn [andb];
    [destruct (bool_decide_reflect (q = [])) as [->|N]; cbn [negb]|];
    destruct r; cbn; repeat split;
    try reflexivity; try apply andb_false_r;
    try (rewrite bool_decide_eq_true_2 by reflexivity; reflexivity).
Qed.

(** [X17] A call of [speak] without a prior user interaction does
    nothing at all.  A call that goes ahead produces exactly one
    narration: when speech synthesis is available and
    [speechSynthesis.speak] does not throw, the new utterance is queued
    and no audio clip is started; in every other case (no voices, no
    synthesizer, or a throwing synthesizer) nothing is queued and
    exactly one fallback clip with the same text is started. *)
Theorem speak_yields_one_narration
    (cl : ModelPlayer.Hooks) (t : string) (throws : bool) (w : ModelPlayer.World) :
  let w' := ModelPlayer.speak cl t throws w in
  let quiet := ModelPlayer.speech (ModelPlayer.cancelSpeech w) in
  (ModelPlayer.userInteracted cl = false -> w' = w)
  /\ (ModelPlayer.userInteracted cl = true ->
      if ModelPlayer.ttsAvailable cl
         && ModelPlayer.speechSynthesisRef (ModelPlayer.speech w)
         && negb throws
      then ModelPlayer.queue (ModelPlayer.speech w')
           = ModelPlayer.queue quiet
             ++ [length (ModelPlayer.utterances (ModelPlayer.speech w))]
           /\ ModelPlayer.audioFallbacks (ModelPlayer.speech w')
              = ModelPlayer.audioFallbacks (ModelPlayer.speech w)
      else ModelPlayer.queue (ModelPlayer.speech w') = ModelPlayer.queue quiet
           /\ ModelPlayer.audioFallbacks (ModelPlayer.speech w')
              = ModelPlayer.audioFallbacks (ModelPlayer.speech w) ++ [t]).
Proof.
  cbv zeta. split.
  - intros U. unfold ModelPlayer.speak. now rewrite U.
  - intros U. rewrite (speech_speak cl t throws w U). cbv zeta.
    pose proof (speech_cancelSpeech w) as C. cbv zeta in C.
    assert (R : ModelPlayer.speechSynthesisRef (ModelPlayer.speech (ModelPlayer.cancelSpeech w))
                = ModelPlayer.speechSynthesisRef (ModelPlayer.speech w))
      by (rewrite C; reflexivity).
    assert (A : ModelPlayer.audioFallbacks (ModelPlayer.speech (ModelPlayer.cancelSpeech w))
                = ModelPlayer.audioFallbacks (ModelPlayer.speech w))
      by (rewrite C; reflexivity).
    assert (L : length (ModelPlayer.utterances
                          (ModelPlayer.speech (ModelPlayer.cancelSpeech w)))
                = length (ModelPlayer.utterances (ModelPlayer.speech w))).
    { rewrite C. cbn.
      destruct (ModelPlayer.speechUtteranceRef (ModelPlayer.speech w));
        [apply length_alter | reflexivity]. }
    rewrite R.
    destruct (ModelPlayer.ttsAvailable cl
              && ModelPlayer.speechSynthesisRef (ModelPlayer.speech w));
      [destruct throws|]; cbn -[ModelPlayer.cancelSpeech];
      rewrite ?L, ?A; split; reflexivity.
Qed.

Lemma speak_yields_one_narration_witness :
  let cl := ModelPlayer.hooks (ModelPlayer.setUserInteracted true playerStart) in
  let w' := ModelPlayer.speak cl "Pick up your toothbrush" true playerStart in
  ModelPlayer.queue (ModelPlayer.speech w') = []
  /\ ModelPlayer.audioFallbacks (ModelPlayer.speech w') = ["Pick up your toothbrush"].
Proof.
  cbv zeta.
  exact (proj2 (speak_yields_one_narration
                  (ModelPlayer.hooks (ModelPlayer.setUserInteracted true playerStart))
                  "Pick up your toothbrush" true playerStart) eq_refl).
Defined.



(** ** Camera acquisition, continued *)

Section CameraMore.
Import ModelPlayer.

Lemma media_startDetection cl rnd w : media (startDetection cl rnd w) = media w.
Proof.
  unfold startDetection.
  destruct (negb (bool_decide (is_Some (videoRef (media w)))) || _); reflexivity.
Qed.

Lemma accounted_release w :
  accounted (media w) ->
  stopped (media (releaseStream w)) = seq 0 (nextStream (media w))
  /\ streamRef (media (releaseStream w)) = None
  /\ nextStream (media (releaseStream w)) = nextStream (media w).
Proof.
  unfold accounted, releaseStream. destruct w as [h s [v m st sp nx tr] sc].
  cbn -[seq]. destruct st; cbn -[seq]; rewrite ?app_nil_r; auto.
Qed.

Lemma accounted_hold w :
  stopped (media w) = seq 0 (nextStream (media w)) ->
  accounted (media (holdStream w)).
Proof.
  unfold accounted, holdStream. destruct w as [h s [v m st sp nx tr] sc].
  cbn -[seq]. intros ->. now rewrite seq_S.
Qed.

Lemma accounted_tryCamera cl acq rnd n w :
  accounted (media w) -> accounted (media (tryCamera cl acq rnd n w).1).
Proof.
  intros A. unfold tryCamera. cbn zeta.
  set (w1 := setDetectionStatus _ (logCamera _ w)).
  assert (A1 : accounted (media w1)) by exact A.
  destruct (accounted_release w1 A1) as (S & R & N).
  assert (A2 : accounted (media (releaseStream w1))).
  { unfold accounted. rewrite S, R, N. cbn. apply app_nil_r. }
  assert (H : accounted (media (holdStream (releaseStream w1)))).
  { apply accounted_hold. now rewrite S, N. }
  destruct (videoRef (media (releaseStream w1))); [|exact A2].
  destruct acq; cbn [fst]; try exact A2; try exact H.
  rewrite media_startDetection. exact H.
Qed.

Lemma accounted_giveUp err w :
  accounted (media w) ->
  accounted (media (giveUp err w))
  /\ stopped (media (giveUp err w)) = seq 0 (nextStream (media (giveUp err w))).
Proof.
  intros A. unfold giveUp. cbn zeta.
  set (w1 := setDetectionStatus _ _).
  assert (A1 : accounted (media w1)) by exact A.
  destruct (accounted_release w1 A1) as (S & R & N).
  split; [unfold accounted; rewrite S, R, N; cbn; apply app_nil_r|].
  now rewrite S, N.
Qed.

End CameraMore.

(** [X19] [initCamera] never leaks a camera stream: before it asks for
    a new stream it stops the tracks of the one it holds, so at every
    exit each stream ever obtained has been stopped except the one
    [streamRef] still holds. *)
Theorem initCamera_releases_streams
    (cl : ModelPlayer.Hooks) (cam : nat -> ModelPlayer.Acquisition) (rnd : Q)
    (attempt : nat) (w : ModelPlayer.World) :
  ModelPlayer.accounted (ModelPlayer.media w) ->
  ModelPlayer.accounted
    (ModelPlayer.media (ModelPlayer.initCamera cl cam rnd attempt w)).
Proof.
  apply (initCamera_preserves (fun w => ModelPlayer.accounted (ModelPlayer.media w))).
  - intros acq n w0. apply accounted_tryCamera.
  - intros e w0 A. exact A.
  - intros err w0 A. now apply accounted_giveUp.
Qed.

Lemma initCamera_releases_streams_witness :
  let cam (n : nat) :=
    match n with
    | 3%nat => ModelPlayer.Streaming
    | _ => ModelPlayer.CameraTimeout
    end in
  let w := ModelPlayer.initCamera (ModelPlayer.hooks playerStart) cam (1 # 2) 1
             playerStart in
  ModelPlayer.accounted (ModelPlayer.media w)
  /\ ModelPlayer.stopped (ModelPlayer.media w) = [0%nat; 1%nat]
  /\ ModelPlayer.streamRef (ModelPlayer.media w) = Some 2%nat.
Proof.
  cbv zeta. split; [|split; reflexivity].
  apply initCamera_releases_streams. reflexivity.
Defined.

(** [X20] What a successful acquisition starts depends on the model:
    when the first attempt succeeds and the COCO-SSD model is loaded,
    the detection interval runs with the caller's render and one
    fallback timeout is pending, with a delay of at least 10 s and less
    than 11 s; when the model is not loaded the camera is reported
    ready but neither an interval nor a timeout is set up, and the
    timers are left as they were. *)
Theorem successful_acquisition_starts_detection
    (cl : ModelPlayer.Hooks) (cam : nat -> ModelPlayer.Acquisition) (rnd : Q)
    (w : ModelPlayer.World) :
  Js.is_random rnd ->
  ModelPlayer.outcome (ModelPlayer.videoRef (ModelPlayer.media w)) (cam 1%nat) = None ->
  let w' := ModelPlayer.initCamera cl cam rnd 1 w in
  let t := ModelPlayer.nextTimer (ModelPlayer.sched w) in
  ModelPlayer.detectionStatus (ModelPlayer.hooks w') = "Camera ready"
  /\ (ModelPlayer.objectDetectionModelRef (ModelPlayer.media w) = true ->
      ModelPlayer.detectionIntervalRef (ModelPlayer.sched w') = Some cl
      /\ ModelPlayer.autoDetectTimeout (ModelPlayer.hooks w') = Some t
      /\ exists d, ModelPlayer.timers (ModelPlayer.sched w')
                   = <[t := {| ModelPlayer.delay := d;
                               ModelPlayer.action := ModelPlayer.AutoDetect cl |}]>
                       (ModelPlayer.timers (ModelPlayer.sched w))
                   /\ 10000 <= d < 11000)
  /\ (ModelPlayer.objectDetectionModelRef (ModelPlayer.media w) = false ->
      ModelPlayer.sched w' = ModelPlayer.sched w
      /\ ModelPlayer.autoDetectTimeout (ModelPlayer.hooks w')
         = ModelPlayer.autoDetectTimeout (ModelPlayer.hooks w)).
Proof.
  intros R O. cbv zeta. rewrite initCamera_attempt.
  unfold ModelPlayer.outcome in O. unfold ModelPlayer.tryCamera. cbn zeta.
  destruct w as [h s [v m st sp nx tr] sc]. cbn in O.
  destruct v as [hgt|]; [|discriminate].
  destruct (cam 1%nat); try discriminate.
  assert (V : forall st', ModelPlayer.videoRef
                (ModelPlayer.media
                   (ModelPlayer.releaseStream
                      (ModelPlayer.setDetectionStatus "Initializing camera..."
                         (ModelPlayer.logCamera (ModelPlayer.Attempt 1)
                            (ModelPlayer.mkWorld h s
                               (ModelPlayer.mkMedia (Some hgt) m st' sp nx tr) sc)))))
              = Some hgt) by (intros [?|]; reflexivity).
  rewrite V. unfold ModelPlayer.startDetection.
  pose proof (floor_of_scaled_random rnd 1000 R ltac:(lia)) as F.
  change (inject_Z 1000) with 1000%Q in F.
  destruct st, m; cbn; (split; [reflexivity|]); split; intros E;
    try discriminate E; try (split; reflexivity);
    (split; [reflexivity|]); (split; [reflexivity|]);
    exists (ModelPlayer.randomDelay rnd);
    (split; [reflexivity | unfold ModelPlayer.randomDelay; lia]).
Qed.

Lemma successful_acquisition_starts_detection_witness :
  let w' := ModelPlayer.initCamera (ModelPlayer.hooks playerStart)
              (fun _ => ModelPlayer.Streaming) (1 # 2) 1 playerStart in
  ModelPlayer.detectionIntervalRef (ModelPlayer.sched w')
  = Some (ModelPlayer.hooks playerStart).
Proof.
  cbv zeta.
  assert (R : Js.is_random (1 # 2))
    by (split; [unfold Qle | unfold Qlt]; simpl; lia).
  destruct (successful_acquisition_starts_detection (ModelPlayer.hooks playerStart)
              (fun _ => ModelPlayer.Streaming) (1 # 2) playerStart R eq_refl)
    as (_ & H & _).
  exact (proj1 (H eq_refl)).
Defined.

(** ** The guidance request and the chat page, continued *)

Section GuidanceMore.

Lemma append_cons c a b : String c a +:+ b = String c (a +:+ b).
Proof. reflexivity. Qed.

Lemma append_nil b : EmptyString +:+ b = b.
Proof. reflexivity. Qed.

Lemma toLowerCase_app a b :
  JsString.toLowerCase (a +:+ b) = JsString.toLowerCase a +:+ JsString.toLowerCase b.
Proof.
  induction a as [|c a IH]; rewrite ?append_nil, ?append_cons; cbn;
    rewrite ?append_nil, ?append_cons; [reflexivity | f_equal; exact IH].
Qed.

Lemma startsWith_app p s : JsString.startsWith p (p +:+ s) = true.
Proof.
  induction p as [|c p IH]; rewrite ?append_cons; cbn; [reflexivity|].
  now rewrite Ascii.eqb_refl, IH.
Qed.

Lemma startsWith_app_r p a b :
  JsString.startsWith p a = true -> JsString.startsWith p (a +:+ b) = true.
Proof.
  revert a. induction p as [|c p IH]; intros [|d a]; rewrite ?append_cons; cbn;
    try easy.
  intros H. apply andb_true_iff in H as [H1 H2]. rewrite H1. cbn. now apply IH.
Qed.

Lemma includes_app_r a b sub :
  JsString.includes a sub = true -> JsString.includes (a +:+ b) sub = true.
Proof.
  induction a as [|c a IH].
  - cbn. rewrite orb_false_r. intros H. destruct sub; [|discriminate].
    destruct b; reflexivity.
  - rewrite append_cons. cbn -[JsString.startsWith]. intros H.
    apply orb_true_iff in H as [H|H].
    + rewrite <- append_cons, (startsWith_app_r _ _ b H). reflexivity.
    + rewrite (IH H). apply orb_true_r.
Qed.

Lemma includes_app_l a b sub :
  JsString.includes b sub = true -> JsString.includes (a +:+ b) sub = true.
Proof.
  intros H. induction a as [|c a IH]; [exact H|].
  rewrite append_cons. cbn -[JsString.startsWith]. rewrite IH. apply orb_true_r.
Qed.

Lemma includes_self_app k post : JsString.includes (k +:+ post) k = true.
Proof.
  destruct (k +:+ post) as [|d r] eqn:E; cbn -[JsString.startsWith];
    rewrite <- E, startsWith_app; reflexivity.
Qed.

Lemma keyword_is_lower_case k :
  In k GuidancePage.GENERAL_KEYWORDS -> JsString.toLowerCase k = k.
Proof.
  cbn. intros H. repeat (destruct H as [<-|H]; [reflexivity|]). destruct H.
Qed.



Lemma sliceLast_app {A} (n : nat) (old recent : list A) :
  (n <= length recent)%nat -> sliceLast n (old ++ recent) = sliceLast n recent.
Proof.
  intros H. unfold sliceLast. rewrite length_app, drop_app_ge by lia.
  f_equal. lia.
Qed.

Lemma isMissing_false_iff r k :
  Gemini.isMissing r k = Some false
  <-> exists v, Gemini.property r k = Gemini.Value v /\ Gemini.truthy v = true.
Proof.
  unfold Gemini.isMissing. destruct (Gemini.property r k) as [| |v].
  - split; [discriminate | intros (v & [=] & _)].
  - split; [discriminate | intros (v & [=] & _)].
  - split.
    + intros [= H]. exists v. split; [reflexivity|]. now apply negb_false_iff.
    + intros (v' & [= <-] & T). now rewrite T.
Qed.

Lemma validate_inl r r' :
  Gemini.validate r = inl r'
  <-> r' = r /\ Gemini.isMissing r "support" = Some false
      /\ Gemini.isMissing r "actionPlan" = Some false
      /\ Gemini.isMissing r "therapySuggestions" = Some false.
Proof.
  unfold Gemini.validate.
  destruct (Gemini.isMissing r "support") as [[|]|];
    destruct (Gemini.isMissing r "actionPlan") as [[|]|];
    destruct (Gemini.isMissing r "therapySuggestions") as [[|]|];
    split; try discriminate; try (intros (_ & A & B & C); discriminate).
  - now intros [= <-].
  - now intros (-> & _).
Qed.

End GuidanceMore.

(** [X21] The structure check of [getParentGuidance] accepts a parsed
    value exactly when each of [support], [actionPlan] and
    [therapySuggestions] is an own property with a truthy value, and
    then returns that value unchanged: a field that is present but
    [null], [false], [0] or the empty string is rejected like a missing
    one, while an empty object or array passes. *)
Theorem validate_accepts_exactly_truthy_fields (r r' : Gemini.json) :
  Gemini.validate r = inl r'
  <-> r' = r
      /\ forall k, In k Gemini.requiredFields ->
           exists v, Gemini.property r k = Gemini.Value v /\ Gemini.truthy v = true.
Proof.
  rewrite validate_inl, !isMissing_false_iff. split.
  - intros (-> & A & B & C). split; [reflexivity|].
    intros k [<-|[<-|[<-|[]]]]; assumption.
  - intros (-> & H). repeat split; try reflexivity; apply H; cbn; auto.
Qed.

(** [X22] [getParentGuidance] has two outcomes only.  Either it returns
    the value parsed from the cleaned response text, and that value has
    passed the structure check; or it throws the one retry message,
    whatever went wrong (the request was rejected, the text was not
    JSON, the structure check failed or reading a field threw). *)
Theorem getParentGuidance_outcomes
    (JSON_parse : string -> option Gemini.json) (gen : Gemini.Generation) :
  (exists raw r,
      gen = Gemini.Text raw
      /\ JSON_parse (Gemini.responseText raw) = Some r
      /\ Gemini.validate r = inl r
      /\ Gemini.getParentGuidance JSON_parse gen = inl r)
  \/ Gemini.getParentGuidance JSON_parse gen = inr Gemini.retryMessage.
Proof.
  destruct gen as [|raw]; [right; reflexivity|]. cbn.
  destruct (JSON_parse (Gemini.responseText raw)) as [r|] eqn:P; [|right; reflexivity].
  destruct (Gemini.validate r) as [r'|e] eqn:V; [|right; reflexivity].
  left. exists raw, r. apply validate_inl in V as V'. destruct V' as (-> & _).
  auto.
Qed.





(** [X25] The context of a request depends on the last three messages
    only: whatever was said before them, and however long the
    conversation is, the context string is the one built from those
    three, and it is made of at most three message texts. *)
Theorem context_is_built_from_last_three
    (JSON_stringify : Gemini.json -> string)
    (old recent : list GuidancePage.ChatMessage) :
  length recent = 3%nat ->
  GuidancePage.contextOf JSON_stringify (old ++ recent)
  = GuidancePage.contextOf JSON_stringify recent
  /\ (length (GuidancePage.contextMessages (old ++ recent)) <= 3)%nat.
Proof.
  intros H. unfold GuidancePage.contextOf, GuidancePage.contextMessages.
  rewrite sliceLast_app by lia. split; [reflexivity|].
  etransitivity; [apply length_filter|].
  unfold sliceLast. rewrite length_drop. lia.
Qed.

Lemma context_is_built_from_last_three_witness :
  let m (s : string) :=
    {| GuidancePage.sender := GuidancePage.parent;
       GuidancePage.content := GuidancePage.Plain s;
       GuidancePage.isGeneral := false |} in
  GuidancePage.contextOf stringifyKnown ([m "a"] ++ [m "b"; m "c"; m "d"])
  = GuidancePage.contextOf stringifyKnown [m "b"; m "c"; m "d"]
  /\ (length (GuidancePage.contextMessages ([m "a"] ++ [m "b"; m "c"; m "d"])) <= 3)%nat.
Proof.
  cbv zeta. apply context_is_built_from_last_three. reflexivity.
Defined.

(** [X26] The general-query test is a substring test on the lower-cased
    input: a keyword written in any mix of cases and placed anywhere in
    the input, inside a longer word included, makes the input a general
    query. *)
Theorem keyword_anywhere_makes_a_general_query
    (k before mid after : string) :
  In k GuidancePage.GENERAL_KEYWORDS ->
  JsString.toLowerCase mid = k ->
  GuidancePage.isGeneralQuery (before +:+ mid +:+ after) = true.
Proof.
  intros K M. unfold GuidancePage.isGeneralQuery. apply existsb_exists.
  exists k. split; [exact K|].
  rewrite (keyword_is_lower_case k K), !toLowerCase_app, M.
  apply includes_app_l, includes_self_app.
Qed.

Lemma keyword_anywhere_makes_a_general_query_witness :
  GuidancePage.isGeneralQuery "My daughter refuses bedTime routines" = true.
Proof.
  apply (keyword_anywhere_makes_a_general_query
           "time" "My daughter refuses bed" "Time" " routines").
  - cbn. auto.
  - reflexivity.
Defined.

Section ConversationFacts.
Variable JSON_parse : string -> option Gemini.json.
Variable JSON_stringify : Gemini.json -> string.

Lemma handleSend_appends gen st :
  exists added,
    GuidancePage.messages (GuidancePage.handleSend JSON_parse JSON_stringify gen st).1
    = GuidancePage.messages st ++ added
    /\ (length (GuidancePage.handleSend JSON_parse JSON_stringify gen st).2 <= 1)%nat
    /\ (forall call,
          In call (GuidancePage.handleSend JSON_parse JSON_stringify gen st).2 ->
          GuidancePage.prompt call = GuidancePage.input st).
Proof.
  unfold GuidancePage.handleSend.
  destruct (_ || _).
  - exists []. cbn. rewrite app_nil_r. repeat split; [lia | intros _ []].
  - destruct (GuidancePage.isGeneralQuery _).
    + eexists. cbn. rewrite <- app_assoc. repeat split; [lia | intros _ []].
    + destruct (Gemini.getParentGuidance _ _); eexists; cbn; rewrite <- app_assoc;
        (repeat split; [lia | intros call [<-|[]]; reflexivity]).
Qed.

End ConversationFacts.

(** [X27] Over a whole conversation the chat history only grows: the
    messages present at the start stay, in place and unchanged, as a
    prefix of the history.  The page makes at most one request per
    turn, and the prompt of every request is the text of one of the
    turns. *)
Theorem conversation_history_only_grows
    (JSON_parse : string -> option Gemini.json)
    (JSON_stringify : Gemini.json -> string)
    (turns : list (string * Gemini.Generation)) (st : GuidancePage.State) :
  let result := GuidancePage.converse JSON_parse JSON_stringify turns st in
  (exists added,
      GuidancePage.messages result.1 = GuidancePage.messages st ++ added)
  /\ (length result.2 <= length turns)%nat
  /\ (forall call, In call result.2 ->
        exists gen, In (GuidancePage.prompt call, gen) turns).
Proof.
  cbv zeta. revert st. induction turns as [|[t gen] rest IH]; intros st; cbn.
  - split; [exists []; now rewrite app_nil_r|]. split; [lia | intros _ []].
  - destruct (handleSend_appends JSON_parse JSON_stringify gen
                (GuidancePage.mkState (GuidancePage.messages st) t
                                      (GuidancePage.isLoading st)))
      as (a1 & M1 & L1 & P1).
    destruct (GuidancePage.handleSend _ _ _ _) as [st1 calls1]. cbn in M1, L1, P1.
    destruct (IH st1) as ((a2 & M2) & L2 & P2).
    destruct (GuidancePage.converse _ _ rest st1) as [st2 calls2]. cbn in M2, L2, P2 |- *.
    split; [exists (a1 ++ a2); now rewrite M2, M1, app_assoc|].
    split; [rewrite length_app; lia|].
    intros call H. apply in_app_or in H as [H|H].
    + exists gen. left. now rewrite (P1 call H).
    + destruct (P2 call H) as (g & G). exists g. now right.
Qed.

(** ** Unmounting the object-detector player *)

Lemma cancelSpeech_silences w :
  ModelPlayer.speaking (ModelPlayer.speech (ModelPlayer.cancelSpeech w)) = false
  /\ ModelPlayer.speechUtteranceRef (ModelPlayer.speech (ModelPlayer.cancelSpeech w))
     = None.
Proof.
  rewrite speech_cancelSpeech. destruct w as [h [sr r us q a] m sc].
  unfold ModelPlayer.speaking. cbn. split; [|reflexivity].
  destruct sr; [|reflexivity]. cbn.
  destruct (bool_decide (q = [])) eqn:Q; cbn; [|reflexivity].
  now rewrite Q.
Qed.

(** [X28] The cleanup that runs on unmount belongs to the mount effect,
    so it reads [autoDetectTimeout] of the first render, which is
    [null]: it stops the detection interval, silences the narration and
    stops the tracks of the held stream (without dropping the
    reference), but a pending timeout other than the one in
    [timeoutRef], such as the fallback timeout of [startDetection], is
    left pending. *)
Theorem unmount_keeps_fallback_timer
    (customInterval : Z) (w : ModelPlayer.World) (t : nat) (tm : ModelPlayer.Timer) :
  ModelPlayer.timers (ModelPlayer.sched w) !! t = Some tm ->
  ModelPlayer.timeoutRef (ModelPlayer.sched w) <> Some t ->
  let w' := ModelPlayer.cleanUp (ModelPlayer.firstRender customInterval) w in
  ModelPlayer.timers (ModelPlayer.sched w') !! t = Some tm
  /\ ModelPlayer.detectionIntervalRef (ModelPlayer.sched w') = None
  /\ ModelPlayer.speaking (ModelPlayer.speech w') = false
  /\ ModelPlayer.speechUtteranceRef (ModelPlayer.speech w') = None
  /\ ModelPlayer.streamRef (ModelPlayer.media w') = ModelPlayer.streamRef (ModelPlayer.media w)
  /\ (forall s, ModelPlayer.streamRef (ModelPlayer.media w) = Some s ->
        ModelPlayer.stopped (ModelPlayer.media w')
        = ModelPlayer.stopped (ModelPlayer.media w) ++ [s]).
Proof.
  intros T R. cbv zeta. unfold ModelPlayer.cleanUp.
  cbn [ModelPlayer.autoDetectTimeout ModelPlayer.firstRender]. cbv zeta.
  set (w1 := ModelPlayer.withMedia _ w).
  assert (S1 : ModelPlayer.sched (ModelPlayer.cancelSpeech w1) = ModelPlayer.sched w)
    by (rewrite sched_cancelSpeech; reflexivity).
  assert (M1 : ModelPlayer.media (ModelPlayer.cancelSpeech w1) = ModelPlayer.media w1)
    by apply media_cancelSpeech.
  unfold ModelPlayer.clearAllIntervals. cbv zeta.
  set (w2 := ModelPlayer.clearDetectionInterval (ModelPlayer.cancelSpeech w1)).
  assert (S2 : ModelPlayer.sched w2
               = ModelPlayer.mkSched None (ModelPlayer.timers (ModelPlayer.sched w))
                   (ModelPlayer.nextTimer (ModelPlayer.sched w))
                   (ModelPlayer.timeoutRef (ModelPlayer.sched w)))
    by (unfold w2; cbn -[ModelPlayer.cancelSpeech]; now rewrite S1).
  pose proof (cancelSpeech_silences w1) as Sp.
  assert (Md : ModelPlayer.streamRef (ModelPlayer.media w1)
               = ModelPlayer.streamRef (ModelPlayer.media w)
               /\ forall s, ModelPlayer.streamRef (ModelPlayer.media w) = Some s ->
                    ModelPlayer.stopped (ModelPlayer.media w1)
                    = ModelPlayer.stopped (ModelPlayer.media w) ++ [s]).
  { unfold w1. destruct w as [h sp [v m st so nx tr] sc]. cbn.
    destruct st; cbn; split; try reflexivity; intros s [=]. now subst. }
  rewrite S2. cbn [ModelPlayer.timeoutRef].
  destruct (ModelPlayer.timeoutRef (ModelPlayer.sched w)) as [t0|] eqn:E.
  - cbn -[ModelPlayer.cancelSpeech]. rewrite S1, M1.
    rewrite lookup_delete_ne by congruence.
    repeat split; try tauto; apply Md.
  - cbn -[ModelPlayer.cancelSpeech]. rewrite S1, M1.
    repeat split; try tauto; apply Md.
Qed.

Lemma unmount_keeps_fallback_timer_witness :
  let running := ModelPlayer.initCamera (ModelPlayer.hooks playerStart)
                   (fun _ => ModelPlayer.Streaming) (1 # 2) 1 playerStart in
  exists t tm,
    ModelPlayer.timers (ModelPlayer.sched running) !! t = Some tm
    /\ ModelPlayer.timers
         (ModelPlayer.sched (ModelPlayer.cleanUp (ModelPlayer.firstRender 15) running))
       !! t = Some tm.
Proof.
  cbv zeta.
  exists (ModelPlayer.nextTimer (ModelPlayer.sched playerStart)).
  exists {| ModelPlayer.delay := 10500;
            ModelPlayer.action := ModelPlayer.AutoDetect (ModelPlayer.hooks playerStart) |}.
  assert (T : ModelPlayer.timers
                (ModelPlayer.sched
                   (ModelPlayer.initCamera (ModelPlayer.hooks playerStart)
                      (fun _ => ModelPlayer.Streaming) (1 # 2) 1 playerStart))
              !! ModelPlayer.nextTimer (ModelPlayer.sched playerStart)
              = Some {| ModelPlayer.delay := 10500;
                        ModelPlayer.action :=
                          ModelPlayer.AutoDetect (ModelPlayer.hooks playerStart) |})
    by (vm_compute; reflexivity).
  split; [exact T|].
  apply (unmount_keeps_fallback_timer 15 _ _ _ T). vm_compute. discriminate.
Defined.
